(** * QuantEdge dashboard: the request/response contract and the state orchestrator

    A shallow embedding of
      - [src/services/geminiService.ts]  ([analyzeStocks]),
      - [src/App.tsx]                    ([handleSearch], the progress estimator),
      - [src/components/AnalysisDashboard.tsx] ([renderDCFInfo])
    and the properties the specification states about them.

    JavaScript strings are sequences of UTF-16 code units, JavaScript numbers
    are IEEE 754 binary64 values (the Standard Library's [spec_float] at
    precision 53), thrown errors travel in an error monad, and React state
    is threaded explicitly through an event-driven step function. *)

From Stdlib Require Import List NArith ZArith Bool String Ascii DecimalString Lia.
From Stdlib Require Import Floats.SpecFloat.
Import ListNotations.

Set Implicit Arguments.

(* ================================================================== *)
(** * Part I: definitions                                              *)
(* ================================================================== *)

(** ** JavaScript values *)

Module Js.

(** A string is its sequence of UTF-16 code units. *)
Definition jsstring : Type := list N.

(** A source-code literal (ASCII) as a JavaScript string. *)
Definition js (s : string) : jsstring :=
  map N_of_ascii (list_ascii_of_string s).

Fixpoint str_eqb (a b : jsstring) : bool :=
  match a, b with
  | [], [] => true
  | x :: a', y :: b' => N.eqb x y && str_eqb a' b'
  | _, _ => false
  end.

(** [s.length > 0], which is also the truthiness of a string. *)
Definition nonempty (s : jsstring) : bool :=
  match s with [] => false | _ :: _ => true end.

(** [a || d] on a possibly undefined string: the default replaces
    [undefined] and the empty string. *)
Definition str_or (a : option jsstring) (d : jsstring) : jsstring :=
  match a with
  | Some s => if nonempty s then s else d
  | None => d
  end.

(** ECMAScript WhiteSpace and LineTerminator code points: the class [\s] of
    regular expressions and the characters [String.prototype.trim] strips. *)
Definition isWhiteSpace (c : N) : bool :=
  ((9 <=? c) && (c <=? 13)          (* TAB LF VT FF CR *)
   || (c =? 32)                     (* SPACE *)
   || (c =? 160)                    (* NO-BREAK SPACE *)
   || (c =? 5760)                   (* U+1680 *)
   || ((8192 <=? c) && (c <=? 8202)) (* U+2000 .. U+200A *)
   || (c =? 8232) || (c =? 8233)    (* U+2028 U+2029 *)
   || (c =? 8239)                   (* U+202F *)
   || (c =? 8287)                   (* U+205F *)
   || (c =? 12288)                  (* U+3000 *)
   || (c =? 65279))%N.              (* U+FEFF *)

Fixpoint trimStart (s : jsstring) : jsstring :=
  match s with
  | c :: s' => if isWhiteSpace c then trimStart s' else s
  | [] => []
  end.

Definition trimEnd (s : jsstring) : jsstring := rev (trimStart (rev s)).

(** [String.prototype.trim]. *)
Definition trim (s : jsstring) : jsstring := trimEnd (trimStart s).

(** [Array.prototype.join] on strings. *)
Fixpoint join (sep : jsstring) (l : list jsstring) : jsstring :=
  match l with
  | [] => []
  | [x] => x
  | x :: l' => x ++ sep ++ join sep l'
  end.

(** *** Numbers: IEEE 754 binary64 *)

Definition number : Type := spec_float.

Definition prec : Z := 53.
Definition emax : Z := 1024.

(** An integer literal or integral value as a number. *)
Definition of_Z (z : Z) : number := binary_normalize prec emax z 0 false.

Definition num_sub : number -> number -> number := SFsub prec emax.
Definition num_mul : number -> number -> number := SFmul prec emax.
Definition num_div : number -> number -> number := SFdiv prec emax.

(** [a > b] and [a >= b]; both are false as soon as one side is NaN. *)
Definition num_gt (a b : number) : bool := SFltb b a.
Definition num_ge (a b : number) : bool := SFleb b a.

Definition is_nan (a : number) : bool :=
  match a with S754_nan => true | _ => false end.

(** Neither NaN nor an infinity. *)
Definition finite (a : number) : bool :=
  match a with S754_zero _ | S754_finite _ _ _ => true | _ => false end.

(** [a <= b]. *)
Definition num_le (a b : number) : bool := SFleb a b.

(** Truthiness of a number: everything but [+0], [-0] and [NaN]. *)
Definition num_truthy (a : number) : bool :=
  match a with
  | S754_zero _ | S754_nan => false
  | _ => true
  end.

(** [Math.min(a, b)]: NaN if either is NaN, and [-0] is below [+0]. *)
Definition Math_min (a b : number) : number :=
  match SFcompare a b with
  | None => S754_nan
  | Some Lt => a
  | Some Gt => b
  | Some Eq => match a with S754_zero false => b | _ => a end
  end.

(** [Math.max(a, b)]: NaN if either is NaN, and [+0] is above [-0]. *)
Definition Math_max (a b : number) : number :=
  match SFcompare a b with
  | None => S754_nan
  | Some Lt => b
  | Some Gt => a
  | Some Eq => match a with S754_zero true => b | _ => a end
  end.

(** *** JSON values, as [JSON.parse] returns them *)

#[warnings="-register-all"]
Inductive JValue : Type :=
| JNull
| JBool (b : bool)
| JNum (n : number)
| JStr (s : jsstring)
| JArr (items : list JValue)
| JObj (props : list (jsstring * JValue)).

(** Own-property lookup; [None] is [undefined]. *)
Fixpoint get_prop (k : jsstring) (props : list (jsstring * JValue)) : option JValue :=
  match props with
  | [] => None
  | (k', v) :: rest => if str_eqb k k' then Some v else get_prop k rest
  end.

(** Assignment of a property: an existing key keeps its place. *)
Fixpoint set_prop (k : jsstring) (v : JValue) (props : list (jsstring * JValue))
  : list (jsstring * JValue) :=
  match props with
  | [] => [(k, v)]
  | (k', v') :: rest =>
      if str_eqb k k' then (k, v) :: rest else (k', v') :: set_prop k v rest
  end.

(** The decimal spelling of an array index. *)
Definition index_key (i : nat) : jsstring :=
  js (NilZero.string_of_uint (Nat.to_uint i)).

Fixpoint indexed_from (i : nat) (l : list JValue) : list (jsstring * JValue) :=
  match l with
  | [] => []
  | x :: l' => (index_key i, x) :: indexed_from (S i) l'
  end.

(** The own enumerable properties an object spread [{...v}] copies: those of
    an object, the indexed elements of an array, the indexed code units of a
    string, and nothing for [null], booleans and numbers. *)
Definition spread (v : JValue) : list (jsstring * JValue) :=
  match v with
  | JObj props => props
  | JArr items => indexed_from 0 items
  | JStr s => indexed_from 0 (map (fun c => JStr [c]) s)
  | JNull | JBool _ | JNum _ => []
  end.

(** *** Thrown errors and the error monad *)

Record JsError : Type := mkError {
  err_name : jsstring;
  err_message : jsstring
}.

(** [new Error(msg)]. *)
Definition Error (msg : string) : JsError := mkError (js "Error") (js msg).

Inductive Result (A : Type) : Type :=
| Ok (a : A)
| Throw (e : JsError).

Arguments Ok {A} a.
Arguments Throw {A} e.

Definition bind {A B : Type} (r : Result A) (k : A -> Result B) : Result B :=
  match r with
  | Ok a => k a
  | Throw e => Throw e
  end.

(** The runtime type errors a property read or a call can raise. *)
Inductive TypeErrorKind : Type :=
| ReadOfNull (prop : jsstring)        (* null.prop *)
| ReadOfUndefined (prop : jsstring)   (* undefined.prop *)
| NotAFunction (callee : jsstring).   (* callee(...) on a non-function *)

End Js.

Import Js.

Declare Scope js_scope.
Delimit Scope js_scope with js.
Notation "x <- r ;; k" := (bind r (fun x => k))
  (at level 61, r at next level, right associativity) : js_scope.

Local Open Scope js_scope.

(** ** The host environment

    Built-ins of the JavaScript engine that the program calls and whose
    code is not part of the repository.  [JSON_parse] either returns the
    parsed value or throws (a [SyntaxError]); the wording of an engine's
    [TypeError] messages is engine-specific; [toUpperCase] is
    [String.prototype.toUpperCase] (full Unicode case mapping) and [toFixed]
    is [Number.prototype.toFixed]. *)

Class Host : Type := {
  JSON_parse : jsstring -> Result JValue;
  TypeError_message : TypeErrorKind -> jsstring;
  toUpperCase : jsstring -> jsstring;
  toFixed : number -> nat -> jsstring
}.

Definition TypeError `{Host} (k : TypeErrorKind) : JsError :=
  mkError (js "TypeError") (TypeError_message k).

(** ** [src/services/geminiService.ts] *)

Module GeminiService.

(** *** The response schema *)

(** The fragment of the structured-output schema language the file uses;
    [description] annotations carry no constraint and are left out. *)
#[warnings="-register-all"]
Inductive Schema : Type :=
| STRING (enum : option (list jsstring))
| NUMBER
| ARRAY (items : Schema)
| OBJECT (properties : list (jsstring * Schema)) (required : list jsstring).

Definition STOCK_ITEM_SCHEMA : Schema :=
  OBJECT
    [ (js "ticker", STRING None);
      (js "companyName", STRING None);
      (js "currentPrice", NUMBER);
      (js "value",
        OBJECT
          [ (js "forwardPE", NUMBER);
            (js "forwardPE_2YR", NUMBER);
            (js "sectorMedianPE", NUMBER);
            (js "valuationGrade", STRING (Some [js "Low"; js "Fair"; js "High"]));
            (js "assessment", STRING None) ]
          [ js "forwardPE"; js "forwardPE_2YR"; js "sectorMedianPE";
            js "valuationGrade"; js "assessment" ]);
      (js "quality",
        OBJECT
          [ (js "roe", NUMBER);
            (js "roic", NUMBER);
            (js "debtToEquity", NUMBER);
            (js "dcfIntrinsicValue", NUMBER);
            (js "dcfMarginOfSafety", NUMBER);
            (js "qualityScore", NUMBER);
            (js "assessment", STRING None) ]
          [ js "roe"; js "roic"; js "debtToEquity"; js "dcfIntrinsicValue";
            js "dcfMarginOfSafety"; js "qualityScore"; js "assessment" ]);
      (js "momentum",
        OBJECT
          [ (js "revisionsUp90D", NUMBER);
            (js "revisionsDown90D", NUMBER);
            (js "revisionsGrade", STRING (Some [js "Strong"; js "Neutral"; js "Weak"]));
            (js "assessment", STRING None) ]
          [ js "revisionsUp90D"; js "revisionsDown90D"; js "revisionsGrade";
            js "assessment" ]);
      (js "deepAnalysis", STRING None);
      (js "finalRecommendation",
        STRING (Some [js "Strong Buy"; js "Buy"; js "Hold"; js "Sell"; js "Strong Sell"]));
      (js "riskFactors", ARRAY (STRING None)) ]
    [ js "ticker"; js "companyName"; js "currentPrice"; js "value"; js "quality";
      js "momentum"; js "deepAnalysis"; js "finalRecommendation"; js "riskFactors" ].

Definition BATCH_SCHEMA : Schema :=
  OBJECT [ (js "results", ARRAY STOCK_ITEM_SCHEMA) ] [ js "results" ].

Definition has_prop (fields : list (jsstring * JValue)) (k : jsstring) : bool :=
  match get_prop k fields with Some _ => true | None => false end.

(** What a schema asks of a value: the type, membership in the [enum], every
    [required] key present, and every described property that is present
    conforming in turn.  The program sends the schema to the remote service
    and never evaluates it; this reading is what the specification's
    schema-conformant refers to. *)
Fixpoint conforms (s : Schema) (v : JValue) {struct s} : bool :=
  match s, v with
  | STRING None, JStr _ => true
  | STRING (Some allowed), JStr x => existsb (str_eqb x) allowed
  | NUMBER, JNum _ => true
  | ARRAY items, JArr xs => forallb (conforms items) xs
  | OBJECT properties required, JObj fields =>
      forallb (has_prop fields) required
      && (fix each (ps : list (jsstring * Schema)) : bool :=
            match ps with
            | [] => true
            | (k, sk) :: ps' =>
                match get_prop k fields with
                | Some x => conforms sk x
                | None => true
                end && each ps'
            end) properties
  | _, _ => false
  end.

(** *** The request and the response of [ai.models.generateContent] *)

Record Request : Type := {
  model : jsstring;
  contents : jsstring;
  googleSearch : bool;
  responseMimeType : jsstring;
  responseSchema : Schema
}.

(** The parts of the SDK's response the function reads; every level that the
    source reaches through [?.] may be undefined. *)
Record WebChunk : Type := { title : option jsstring; uri : option jsstring }.
Record GroundingChunk : Type := { web : option WebChunk }.
Record GroundingMetadata : Type := { groundingChunks : option (list GroundingChunk) }.
Record Candidate : Type := { groundingMetadata : option GroundingMetadata }.
Record GenerateContentResponse : Type := {
  text : option jsstring;
  candidates : option (list Candidate)
}.

(** How the awaited call settles: the promise rejects (transport or service
    failure) or fulfils with a response. *)
Inductive Settled : Type :=
| Rejected (e : JsError)
| Fulfilled (response : GenerateContentResponse).

(** One citation [{ title, uri }]. *)
Record Source : Type := { source_title : jsstring; source_uri : jsstring }.

Definition source_json (s : Source) : JValue :=
  JObj [ (js "title", JStr (source_title s)); (js "uri", JStr (source_uri s)) ].

Section WithHost.
Context `{Host}.

(** The argument of the one outbound call.  The system instruction, a fixed
    methodology text around the same [tickers.join(', ')], is not reproduced. *)
Definition request (tickers : list jsstring) : Request :=
  {| model := js "gemini-3-pro-preview";
     contents := js "Perform quantitative 3-factor analysis for: "
                 ++ join (js ", ") tickers
                 ++ js ". Calculate DCF only if FCF is positive.";
     googleSearch := true;
     responseMimeType := js "application/json";
     responseSchema := BATCH_SCHEMA |}.

(** [chunk.web?.title] and [chunk.web?.uri] *)
Definition web_title (chunk : GroundingChunk) : option jsstring :=
  match web chunk with Some w => title w | None => None end.

Definition web_uri (chunk : GroundingChunk) : option jsstring :=
  match web chunk with Some w => uri w | None => None end.

(** [{ title: chunk.web?.title || 'Market Source', uri: chunk.web?.uri || '#' }] *)
Definition chunk_source (chunk : GroundingChunk) : Source :=
  {| source_title := str_or (web_title chunk) (js "Market Source");
     source_uri := str_or (web_uri chunk) (js "#") |}.

(** [response.candidates?.[0]?.groundingMetadata?.groundingChunks] *)
Definition groundingChunks_of (response : GenerateContentResponse)
  : option (list GroundingChunk) :=
  match candidates response with
  | Some (c :: _) =>
      match groundingMetadata c with
      | Some md => groundingChunks md
      | None => None
      end
  | _ => None
  end.

(** The chunks the response carries, none when the metadata is missing. *)
Definition chunks_of (response : GenerateContentResponse) : list GroundingChunk :=
  match groundingChunks_of response with Some chunks => chunks | None => [] end.

(** [...?.map(chunk => ...).filter(s => s.uri !== '#') || []] *)
Definition globalSources (response : GenerateContentResponse) : list Source :=
  match groundingChunks_of response with
  | Some chunks =>
      filter (fun s => negb (str_eqb (source_uri s) (js "#"))) (map chunk_source chunks)
  | None => []
  end.

(** [parsed.results]: reading a property of [null] throws; a missing
    property, and any property of a primitive or an array, is [undefined]. *)
Definition read_results (parsed : JValue) : Result (option JValue) :=
  match parsed with
  | JNull => Throw (TypeError (ReadOfNull (js "results")))
  | JObj props => Ok (get_prop (js "results") props)
  | _ => Ok None
  end.

(** [{ ...stock, sources: srcs }] *)
Definition with_sources (srcs : list Source) (stock : JValue) : JValue :=
  JObj (set_prop (js "sources") (JArr (map source_json srcs)) (spread stock)).

(** [stocks.map(f)]: only an array has a callable [map]. *)
Definition stocks_map (stocks : option JValue) (f : JValue -> JValue)
  : Result (list JValue) :=
  match stocks with
  | None => Throw (TypeError (ReadOfUndefined (js "map")))
  | Some JNull => Throw (TypeError (ReadOfNull (js "map")))
  | Some (JArr items) => Ok (map f items)
  | Some _ => Throw (TypeError (NotAFunction (js "stocks.map")))
  end.

(** [analyzeStocks(tickers)], as a function of how the awaited remote call
    settles.  The [catch] block logs and rethrows, so every thrown error
    leaves the function unchanged. *)
Definition analyzeStocks (tickers : list jsstring) (net : Settled)
  : Result (list JValue) :=
  response <- match net with
              | Rejected e => Throw e
              | Fulfilled r => Ok r
              end ;;
  resultText <- match text response with
                | Some t => if nonempty t then Ok t
                            else Throw (Error "Empty response from AI")
                | None => Throw (Error "Empty response from AI")
                end ;;
  parsed <- JSON_parse resultText ;;
  stocks <- read_results parsed ;;
  let globalSources := globalSources response in
  stocks_map stocks (with_sources (firstn 5 globalSources)).

End WithHost.

End GeminiService.

(** ** [src/App.tsx] *)

Module App.
Import GeminiService.

(** *** [AnalysisState] ([types.ts]) *)

Inductive Step : Type := idle | processing.

Record AnalysisState : Type := {
  loading : bool;
  progress : number;
  error : option jsstring;            (* string | null *)
  data : option (list JValue);        (* StockAnalysisData[] | null, unchecked cast *)
  step : Step
}.

(** [{ ...prev, progress: p }] *)
Definition set_progress (prev : AnalysisState) (p : number) : AnalysisState :=
  {| loading := loading prev; progress := p; error := error prev;
     data := data prev; step := step prev |}.

(** [{ ...prev, error: null }] *)
Definition clear_error (prev : AnalysisState) : AnalysisState :=
  {| loading := loading prev; progress := progress prev; error := None;
     data := data prev; step := step prev |}.

(** The argument of [useState]. *)
Definition initial_state : AnalysisState :=
  {| loading := false; progress := of_Z 0; error := None; data := None; step := idle |}.

(** *** The component: its state, its timers and its pending work *)

Record World : Type := {
  input : jsstring;                     (* the text field *)
  state : AnalysisState;
  progressInterval : option number;     (* the live interval and the startTime it captured *)
  awaiting : list (list jsstring);      (* calls of analyzeStocks not yet settled *)
  timeouts : list (list JValue);        (* scheduled 400 ms callbacks and the results they captured *)
  sent : list Request                   (* outbound requests so far *)
}.

Definition initial_world : World :=
  {| input := []; state := initial_state; progressInterval := None;
     awaiting := []; timeouts := []; sent := [] |}.

Definition setState (w : World) (s : AnalysisState) : World :=
  {| input := input w; state := s; progressInterval := progressInterval w;
     awaiting := awaiting w; timeouts := timeouts w; sent := sent w |}.

Definition setInput (w : World) (s : jsstring) : World :=
  {| input := s; state := state w; progressInterval := progressInterval w;
     awaiting := awaiting w; timeouts := timeouts w; sent := sent w |}.

Definition set_interval (w : World) (i : option number) : World :=
  {| input := input w; state := state w; progressInterval := i;
     awaiting := awaiting w; timeouts := timeouts w; sent := sent w |}.

Definition set_awaiting (w : World) (a : list (list jsstring)) : World :=
  {| input := input w; state := state w; progressInterval := progressInterval w;
     awaiting := a; timeouts := timeouts w; sent := sent w |}.

Definition set_timeouts (w : World) (t : list (list JValue)) : World :=
  {| input := input w; state := state w; progressInterval := progressInterval w;
     awaiting := awaiting w; timeouts := t; sent := sent w |}.

Definition send (w : World) (r : Request) : World :=
  {| input := input w; state := state w; progressInterval := progressInterval w;
     awaiting := awaiting w; timeouts := timeouts w; sent := sent w ++ [r] |}.

(** *** The progress estimator *)

Definition duration : number := of_Z 10000.

(** The state updater of the interval callback, [now] being what
    [Date.now()] returns when it runs. *)
Definition tick (startTime now : number) (prev : AnalysisState) : AnalysisState :=
  if num_ge (progress prev) (of_Z 95) then prev
  else
    let elapsed := num_sub now startTime in
    let percent := Math_min (of_Z 95) (num_mul (num_div elapsed duration) (of_Z 90)) in
    set_progress prev (Math_max (progress prev) percent).

(** [startProgressSimulation()]: progress 5, the previous interval cleared,
    a new one started that remembers [Date.now()]. *)
Definition startProgressSimulation (now : number) (w : World) : World :=
  set_interval (setState w (set_progress (state w) (of_Z 5))) (Some now).

(** [finishProgress()]: the interval cleared, progress 100. *)
Definition finishProgress (w : World) : World :=
  setState (set_interval w None) (set_progress (state w) (of_Z 100)).

(** *** Ticker parsing *)

(** The character class [[, \s]]. *)
Definition isSeparator (c : N) : bool :=
  ((c =? 44) || (c =? 32))%N || isWhiteSpace c.

(** [input.split(/[, \s]+/)].  The scan keeps the substring since the end of
    the last match ([acc], reversed) and whether the position lies inside a
    match: a match starts at the first separator after a non-separator (or
    at position 0) and, being greedy, extends over the whole run; each
    match closes the substring before it, and the rest of the string after
    the last match, possibly empty, is the final element. *)
Fixpoint split_scan (acc : jsstring) (in_match : bool) (s : jsstring) : list jsstring :=
  match s with
  | [] => [rev acc]
  | c :: s' =>
      if isSeparator c then
        if in_match then split_scan acc true s'
        else rev acc :: split_scan [] true s'
      else split_scan (c :: acc) false s'
  end.

Definition split (s : jsstring) : list jsstring := split_scan [] false s.

Section WithHost.
Context `{Host}.

(** [input.split(/[, \s]+/).map(t => t.trim().toUpperCase()).filter(t => t.length > 0)] *)
Definition tickers_of (input : jsstring) : list jsstring :=
  filter nonempty (map (fun t => toUpperCase (trim t)) (split input)).

(** *** [handleSearch] *)

(** Up to the [await]: the guards, the reset of the state, the estimator,
    and the call of [analyzeStocks], which sends the request and suspends. *)
Definition handleSearch (now : number) (w : World) : World :=
  if negb (nonempty (trim (input w))) then w
  else
    let tickers := tickers_of (input w) in
    if Nat.eqb (List.length tickers) 0 then w
    else
      let w := setState w {| loading := true; progress := of_Z 0; error := None;
                             data := None; step := processing |} in
      let w := startProgressSimulation now w in
      set_awaiting (send w (request tickers)) (awaiting w ++ [tickers]).

(** The body of the [try] after the [await]. *)
Definition check_results (awaited : Result (list JValue)) : Result (list JValue) :=
  results <- awaited ;;
  if Nat.eqb (List.length results) 0
  then Throw (Error "No valid financial data found for the provided tickers.")
  else Ok results.

(** The generic engine-error message. *)
Definition generic_message : jsstring :=
  js "Financial analysis engine encountered an error. Please verify the tickers.".

(** [err.message || generic_message] *)
Definition error_text (err : JsError) : jsstring :=
  str_or (Some (err_message err)) generic_message.

(** The state the [catch] block sets. *)
Definition failed (msg : jsstring) : AnalysisState :=
  {| loading := false; progress := of_Z 0; error := Some msg; data := None; step := idle |}.

(** From the [await] on: success stops the estimator and schedules the
    callback that publishes the results; any thrown error is caught and
    published as the error text. *)
Definition handleSearch_resume (awaited : Result (list JValue)) (w : World) : World :=
  match check_results awaited with
  | Ok results =>
      let w := finishProgress w in
      set_timeouts w (timeouts w ++ [results])
  | Throw err =>
      let w := finishProgress w in
      setState w (failed (error_text err))
  end.

(** The callback of [setTimeout(..., 400)]. *)
Definition publish (results : list JValue) (w : World) : World :=
  setState w {| loading := false; progress := of_Z 100; error := None;
                data := Some results; step := idle |}.

(** *** Events

    What can happen to the mounted component.  The events are not limited
    to those the rendered page enables (the field and the button are
    disabled while loading), and of several outstanding calls or timers the
    oldest is served first; what holds of every world reached this way holds
    of those the page can reach. *)

Inductive Event : Type :=
| Change (text : jsstring)     (* typing, or one of the preset buttons *)
| Submit (now : number)        (* the form is submitted; [now] is [Date.now()] *)
| Tick (now : number)          (* the interval fires; [now] is [Date.now()] *)
| Settle (net : Settled)       (* the oldest outstanding remote call settles *)
| Timeout                      (* the oldest 400 ms timer fires *)
| ClearFaults.                 (* the dismiss button of the error panel *)

Definition react (w : World) (e : Event) : World :=
  match e with
  | Change text => setInput w text
  | Submit now => handleSearch now w
  | Tick now =>
      match progressInterval w with
      | Some startTime => setState w (tick startTime now (state w))
      | None => w
      end
  | Settle net =>
      match awaiting w with
      | tickers :: rest =>
          handleSearch_resume (analyzeStocks tickers net) (set_awaiting w rest)
      | [] => w
      end
  | Timeout =>
      match timeouts w with
      | results :: rest => publish results (set_timeouts w rest)
      | [] => w
      end
  | ClearFaults => setState w (clear_error (state w))
  end.

Definition run (w : World) (events : list Event) : World := fold_left react events w.

(** Each number is at most the next one. *)
Fixpoint nondecreasing (l : list number) : Prop :=
  match l with
  | a :: (b :: _) as rest => num_le a b = true /\ nondecreasing rest
  | _ => True
  end.

(** The progress shown after each of a series of ticks. *)
Fixpoint progress_trace (w : World) (nows : list number) : list number :=
  match nows with
  | [] => []
  | now :: rest =>
      let w' := react w (Tick now) in
      progress (state w') :: progress_trace w' rest
  end.

(** The worlds the component can be in. *)
Inductive reachable : World -> Prop :=
| reachable_initial : reachable initial_world
| reachable_react : forall w e, reachable w -> reachable (react w e).

(** Events that start a request, and events that complete a request cycle:
    a settlement that fails, or the timer that publishes the results. *)
Definition starts_request (w : World) (e : Event) : bool :=
  match e with
  | Submit _ => nonempty (trim (input w)) && negb (Nat.eqb (List.length (tickers_of (input w))) 0)
  | _ => false
  end.

(** [loading] and [step] move together. *)
Definition coherent (s : AnalysisState) : Prop :=
  loading s = match step s with processing => true | idle => false end.

(** Exactly one of [error] and [data] is non-null. *)
Definition one_populated (s : AnalysisState) : Prop :=
  (error s <> None /\ data s = None) \/ (error s = None /\ data s <> None).

Definition completes_cycle (w : World) (e : Event) : bool :=
  match e with
  | Settle net =>
      match awaiting w with
      | tickers :: _ =>
          match check_results (analyzeStocks tickers net) with
          | Throw _ => true
          | Ok _ => false
          end
      | [] => false
      end
  | Timeout => match timeouts w with [] => false | _ :: _ => true end
  | _ => false
  end.

(** *** What the page renders and enables *)

(** [state.data] and [state.error] as conditions: an array is always
    truthy, a string is truthy unless empty. *)
Definition has_data (s : AnalysisState) : bool :=
  match data s with Some _ => true | None => false end.

Definition has_error (s : AnalysisState) : bool :=
  match error s with Some m => nonempty m | None => false end.

(** [disabled={state.loading}] on the field and
    [disabled={state.loading || !input.trim()}] on the button. *)
Definition input_disabled (w : World) : bool := loading (state w).

Definition button_disabled (w : World) : bool :=
  loading (state w) || negb (nonempty (trim (input w))).

(** The conditions of the blocks of the returned markup. *)
Definition shows_progress_bar (w : World) : bool := loading (state w).

Definition shows_landing (w : World) : bool :=
  negb (has_data (state w)) && negb (loading (state w)).

Definition shows_spinner (w : World) : bool :=
  loading (state w) && negb (num_truthy (progress (state w))).

Definition shows_error_panel (w : World) : bool := has_error (state w).

Definition shows_dashboard (w : World) : bool :=
  has_data (state w) && negb (loading (state w)).

(** The events the page lets happen: typing and submitting need the enabled
    field (the presets are rendered only while not loading), a tick needs the
    live interval, a settlement an outstanding call, the timer a scheduled
    callback, the dismissal the rendered error panel; [Date.now()] is
    finite. *)
Definition possible (w : World) (e : Event) : bool :=
  match e with
  | Change _ => negb (input_disabled w)
  | Submit now => negb (input_disabled w) && finite now
  | Tick now => match progressInterval w with Some _ => finite now | None => false end
  | Settle _ => match awaiting w with [] => false | _ :: _ => true end
  | Timeout => match timeouts w with [] => false | _ :: _ => true end
  | ClearFaults => shows_error_panel w
  end.

(** The worlds the page can be brought into. *)
Inductive on_page : World -> Prop :=
| on_page_initial : on_page initial_world
| on_page_react : forall w e, on_page w -> possible w e = true -> on_page (react w e).

(** The three phases of the page: nothing outstanding; a call outstanding
    with the estimator running; the results received and their publication
    scheduled. *)
Definition at_rest (w : World) : Prop :=
  awaiting w = [] /\ timeouts w = [] /\ progressInterval w = None
  /\ loading (state w) = false
  /\ ((progress (state w) = of_Z 0 /\ data (state w) = None)
      \/ (progress (state w) = of_Z 100 /\ error (state w) = None
          /\ exists results, data (state w) = Some results)).

Definition in_flight (w : World) : Prop :=
  (exists tickers, awaiting w = [tickers]) /\ timeouts w = []
  /\ (exists startTime, progressInterval w = Some startTime /\ finite startTime = true)
  /\ loading (state w) = true /\ error (state w) = None /\ data (state w) = None
  /\ is_nan (progress (state w)) = false
  /\ num_le (of_Z 5) (progress (state w)) = true
  /\ num_le (progress (state w)) (of_Z 95) = true.

Definition completing (w : World) : Prop :=
  awaiting w = [] /\ (exists results, timeouts w = [results])
  /\ progressInterval w = None
  /\ loading (state w) = true /\ error (state w) = None /\ data (state w) = None
  /\ progress (state w) = of_Z 100.

(** A ticker list as [analyzeStocks] is meant to receive it. *)
Definition proper_tickers (tickers : list jsstring) : Prop :=
  tickers <> [] /\ Forall (fun t => t <> []) tickers.

(** No comma and no whitespace. *)
Definition separator_free (t : jsstring) : bool :=
  forallb (fun c => negb (isSeparator c)) t.

(** A token that can stand in a comma-separated list. *)
Definition plain_token (t : jsstring) : Prop := t <> [] /\ separator_free t = true.

(** [error] excludes [data] and [loading]; [data] excludes [loading]. *)
Definition exclusive (s : AnalysisState) : Prop :=
  (error s <> None -> data s = None /\ loading s = false)
  /\ (data s <> None -> loading s = false).

(** Nothing empty is published: no empty error text, no empty result list,
    neither in the state nor scheduled. *)
Definition nothing_empty (w : World) : Prop :=
  Forall (fun results => results <> []) (timeouts w)
  /\ (forall results, data (state w) = Some results -> results <> [])
  /\ (forall m, error (state w) = Some m -> m <> []).

(** Every call, outstanding or sent, carries proper tickers. *)
Definition calls_proper (w : World) : Prop :=
  Forall proper_tickers (awaiting w)
  /\ Forall (fun r => exists tickers, r = request tickers /\ proper_tickers tickers) (sent w).

End WithHost.

End App.

(** ** [src/components/AnalysisDashboard.tsx] *)

Module AnalysisDashboard.

(** *** [StockAnalysisData] ([types.ts]), as the component's props declare it *)

Inductive ValuationGrade : Type := Low | Fair | High.
Inductive RevisionsGrade : Type := Strong | Neutral | Weak.
Inductive Recommendation : Type := StrongBuy | Buy | Hold | Sell | StrongSell.

Record ValueBlock : Type := {
  forwardPE : number;
  forwardPE_2YR : number;
  sectorMedianPE : number;
  valuationGrade : ValuationGrade;
  value_assessment : jsstring
}.

Record QualityBlock : Type := {
  roe : number;
  roic : number;
  debtToEquity : number;
  dcfIntrinsicValue : number;
  dcfMarginOfSafety : number;
  qualityScore : number;
  quality_assessment : jsstring
}.

Record MomentumBlock : Type := {
  revisionsUp90D : number;
  revisionsDown90D : number;
  revisionsGrade : RevisionsGrade;
  momentum_assessment : jsstring
}.

Record StockAnalysisData : Type := {
  ticker : jsstring;
  companyName : jsstring;
  currentPrice : number;
  value : ValueBlock;
  quality : QualityBlock;
  momentum : MomentumBlock;
  deepAnalysis : jsstring;
  finalRecommendation : Recommendation;
  riskFactors : list jsstring;
  sources : list GeminiService.Source
}.

(** *** What is rendered for the DCF fields *)

(** The two shapes [renderDCFInfo] returns: the line with the dollar value
    and the margin percentage (and the colour class of the margin), or the
    note that there is no DCF. *)
Inductive DCFInfo : Type :=
| DCFLine (dcf_value : jsstring) (margin : jsstring) (margin_class : jsstring)
| DCFNote (note : jsstring).

Section WithHost.
Context `{Host}.

(** [data.quality.dcfIntrinsicValue && data.quality.dcfIntrinsicValue > 0] *)
Definition dcf_valid (data : StockAnalysisData) : bool :=
  num_truthy (dcfIntrinsicValue (quality data))
  && num_gt (dcfIntrinsicValue (quality data)) (of_Z 0).

Definition renderDCFInfo (data : StockAnalysisData) : DCFInfo :=
  if dcf_valid data then
    let margin := num_mul (dcfMarginOfSafety (quality data)) (of_Z 100) in
    DCFLine (js "$" ++ toFixed (dcfIntrinsicValue (quality data)) 2)
            (toFixed margin 1 ++ js "%")
            (if num_gt margin (of_Z 0) then js "text-emerald-400" else js "text-rose-400")
  else DCFNote (js "DCF N/A (Negative/Unpredictable FCF)").

(** The [value] of the card labelled 'DCF Intrinsic'. *)
Definition dcfIntrinsicCard (data : StockAnalysisData) : jsstring :=
  if dcf_valid data
  then js "$" ++ toFixed (dcfIntrinsicValue (quality data)) 2
  else js "N/A".

(** The DCF parts of what the component renders. *)
Record DCFView : Type := {
  matrix_dcf : DCFInfo;       (* the Quality row of the Quantitative Matrix *)
  card_dcf : jsstring         (* the 'DCF Intrinsic' card *)
}.

(** [stocks[activeIndex]]; nothing is rendered when it is undefined. *)
Definition render (stocks : list StockAnalysisData) (activeIndex : nat) : option DCFView :=
  match nth_error stocks activeIndex with
  | Some data => Some {| matrix_dcf := renderDCFInfo data; card_dcf := dcfIntrinsicCard data |}
  | None => None
  end.

End WithHost.

(** *** Colours, badges and the radar *)

(** [getRecommendationColor(rec)] *)
Definition getRecommendationColor (rec : jsstring) : jsstring :=
  if str_eqb rec (js "Strong Buy") then js "text-emerald-400 bg-emerald-400/10 border-emerald-400/20"
  else if str_eqb rec (js "Buy") then js "text-green-400 bg-green-400/10 border-green-400/20"
  else if str_eqb rec (js "Hold") then js "text-yellow-400 bg-yellow-400/10 border-yellow-400/20"
  else if str_eqb rec (js "Sell") then js "text-red-400 bg-red-400/10 border-red-400/20"
  else if str_eqb rec (js "Strong Sell") then js "text-rose-600 bg-rose-600/10 border-rose-600/20"
  else js "text-slate-400 bg-slate-400/10 border-slate-400/20".

(** The strings of the union type [finalRecommendation]. *)
Definition recommendation_text (r : Recommendation) : jsstring :=
  match r with
  | StrongBuy => js "Strong Buy"
  | Buy => js "Buy"
  | Hold => js "Hold"
  | Sell => js "Sell"
  | StrongSell => js "Strong Sell"
  end.

(** One axis of the radar chart. *)
Record Factor : Type := { subject : jsstring; A : number; fullMark : number }.

Definition factorData (data : StockAnalysisData) : list Factor :=
  [ {| subject := js "Value";
       A := match valuationGrade (value data) with
            | Low => of_Z 100
            | Fair => of_Z 60
            | High => of_Z 20
            end;
       fullMark := of_Z 100 |};
    {| subject := js "Quality"; A := qualityScore (quality data); fullMark := of_Z 100 |};
    {| subject := js "Momentum";
       A := match revisionsGrade (momentum data) with
            | Strong => of_Z 100
            | Neutral => of_Z 50
            | Weak => of_Z 10
            end;
       fullMark := of_Z 100 |} ].

(** The colour of the quality score in the header:
    [>= 80 ? emerald : >= 50 ? yellow : rose]. *)
Definition qualityScoreClass (data : StockAnalysisData) : jsstring :=
  if num_ge (qualityScore (quality data)) (of_Z 80) then js "text-emerald-400"
  else if num_ge (qualityScore (quality data)) (of_Z 50) then js "text-yellow-400"
  else js "text-rose-400".

(** The badge of the Quality row and its colour: [> 70]. *)
Definition qualityBadge (data : StockAnalysisData) : jsstring :=
  if num_gt (qualityScore (quality data)) (of_Z 70) then js "High Qual" else js "Mixed".

Definition qualityBadgeClass (data : StockAnalysisData) : jsstring :=
  if num_gt (qualityScore (quality data)) (of_Z 70)
  then js "bg-emerald-500/10 text-emerald-400"
  else js "bg-yellow-500/10 text-yellow-400".

(** *** The tabs *)




End AnalysisDashboard.

(** ** The wording of the specification, for comparison with the code *)

Module Spec.

(** Splitting on commas/whitespace, read character by character: every
    separator ends the current token. *)
Fixpoint split_each (acc : jsstring) (s : jsstring) : list jsstring :=
  match s with
  | [] => [rev acc]
  | c :: s' =>
      if App.isSeparator c then rev acc :: split_each [] s'
      else split_each (c :: acc) s'
  end.

(** The tokens, each trimmed, then uppercased, the empty ones discarded. *)
Definition ticker_tokens `{Host} (input : jsstring) : list jsstring :=
  filter nonempty (map toUpperCase (map trim (split_each [] input))).

(** The error text the specification quotes for an empty result list. *)
Definition no_results_message : jsstring :=
  js "No valid data found for the provided tickers".

(** The expected array: the value of [results] in a parsed object. *)
Definition results_array (parsed : JValue) : option (list JValue) :=
  match parsed with
  | JObj props =>
      match get_prop (js "results") props with
      | Some (JArr items) => Some items
      | _ => None
      end
  | _ => None
  end.

(** The two response failures of the specification's taxonomy. *)
Definition EmptyResponse (r : GeminiService.GenerateContentResponse) : Prop :=
  GeminiService.text r = None \/ GeminiService.text r = Some [].

Definition MalformedResponse `{Host} (r : GeminiService.GenerateContentResponse) : Prop :=
  exists t, GeminiService.text r = Some t /\ nonempty t = true
    /\ match JSON_parse t with
       | Throw _ => True
       | Ok parsed => results_array parsed = None
       end.

(** The guarantee the specification gives for [analyze]. *)
Definition analyze_guarantee `{Host} (tickers : list jsstring) (net : GeminiService.Settled)
  : Prop :=
  forall results, GeminiService.analyzeStocks tickers net = Ok results ->
    results <> []
    /\ Forall (fun r => GeminiService.conforms GeminiService.STOCK_ITEM_SCHEMA r = true) results.


End Spec.

(** ** A host for the examples

    ASCII case mapping, and [JSON.parse] and [toFixed] tabulated on the
    arguments the examples pass, with the answers and the error wording of
    V8. *)

Module Demo.
Import GeminiService.

(** The quotation mark. *)
Definition q (s : string) : jsstring := [34%N] ++ js s ++ [34%N].

Definition upper_unit (c : N) : N :=
  if ((97 <=? c) && (c <=? 122))%N then (c - 32)%N else c.

(** [{"results":[]}], [{"results":[{}]}], [{}] and a page of HTML. *)
Definition empty_results_text : jsstring := js "{" ++ q "results" ++ js ":[]}".
Definition one_blank_result_text : jsstring := js "{" ++ q "results" ++ js ":[{}]}".
Definition no_results_text : jsstring := js "{}".
Definition html_text : jsstring := js "<html>".

Definition parse_table : list (jsstring * JValue) :=
  [ (empty_results_text, JObj [ (js "results", JArr []) ]);
    (one_blank_result_text, JObj [ (js "results", JArr [ JObj [] ]) ]);
    (no_results_text, JObj []) ].

Fixpoint lookup {A : Type} (k : jsstring) (t : list (jsstring * A)) : option A :=
  match t with
  | [] => None
  | (k', v) :: t' => if str_eqb k k' then Some v else lookup k t'
  end.

Definition parse (t : jsstring) : Result JValue :=
  match lookup t parse_table with
  | Some v => Ok v
  | None => Throw (mkError (js "SyntaxError") (js "Unexpected token < in JSON at position 0"))
  end.

Definition type_error_message (k : TypeErrorKind) : jsstring :=
  match k with
  | ReadOfNull p => js "Cannot read properties of null (reading '" ++ p ++ js "')"
  | ReadOfUndefined p => js "Cannot read properties of undefined (reading '" ++ p ++ js "')"
  | NotAFunction f => f ++ js " is not a function"
  end.

(** 187.5 and 25, with their [toFixed(2)] and [toFixed(1)]. *)
Definition n187_5 : number := num_div (of_Z 375) (of_Z 2).

Definition fixed (x : number) (digits : nat) : jsstring :=
  if SFeqb x n187_5 then js "187.50"
  else if SFeqb x (of_Z 25) then js "25.0"
  else js "0.00".

#[global] Instance host : Host := {
  JSON_parse := parse;
  TypeError_message := type_error_message;
  toUpperCase := map upper_unit;
  toFixed := fixed
}.

(** A response carrying [payload] and [n] grounding chunks, the [i]-th with
    the link [u<i>] and no title. *)
Definition chunk (i : nat) : GroundingChunk :=
  {| web := Some {| title := None; uri := Some (js "u" ++ index_key i) |} |}.

Definition response (payload : jsstring) (n : nat) : GenerateContentResponse :=
  {| text := Some payload;
     candidates := Some [ {| groundingMetadata :=
                               Some {| groundingChunks := Some (map chunk (seq 0 n)) |} |} ] |}.

(** A stock with the given DCF fields. *)
Definition stock (dcf margin : number) : AnalysisDashboard.StockAnalysisData :=
  {| AnalysisDashboard.ticker := js "AAPL";
     AnalysisDashboard.companyName := js "Apple Inc.";
     AnalysisDashboard.currentPrice := of_Z 150;
     AnalysisDashboard.value :=
       {| AnalysisDashboard.forwardPE := of_Z 28;
          AnalysisDashboard.forwardPE_2YR := of_Z 25;
          AnalysisDashboard.sectorMedianPE := of_Z 22;
          AnalysisDashboard.valuationGrade := AnalysisDashboard.Fair;
          AnalysisDashboard.value_assessment := js "In line with the sector" |};
     AnalysisDashboard.quality :=
       {| AnalysisDashboard.roe := of_Z 40;
          AnalysisDashboard.roic := of_Z 30;
          AnalysisDashboard.debtToEquity := of_Z 1;
          AnalysisDashboard.dcfIntrinsicValue := dcf;
          AnalysisDashboard.dcfMarginOfSafety := margin;
          AnalysisDashboard.qualityScore := of_Z 85;
          AnalysisDashboard.quality_assessment := js "High returns on capital" |};
     AnalysisDashboard.momentum :=
       {| AnalysisDashboard.revisionsUp90D := of_Z 12;
          AnalysisDashboard.revisionsDown90D := of_Z 3;
          AnalysisDashboard.revisionsGrade := AnalysisDashboard.Strong;
          AnalysisDashboard.momentum_assessment := js "Estimates are rising" |};
     AnalysisDashboard.deepAnalysis := js "Narrative";
     AnalysisDashboard.finalRecommendation := AnalysisDashboard.Buy;
     AnalysisDashboard.riskFactors := [js "Regulation"];
     AnalysisDashboard.sources := [] |}.

(** A response without text. *)
Definition silent_response : GenerateContentResponse :=
  {| text := None; candidates := None |}.

(** The component while a request for AAPL is outstanding. *)
Definition searching : App.World :=
  App.react (App.react App.initial_world (App.Change (js "aapl"))) (App.Submit (of_Z 1000)).

(** *** Richer examples *)

(** Grounding chunks of every kind: with and without [web], title and
    link. *)
Definition web_chunk (t u : option jsstring) : GroundingChunk :=
  {| web := Some {| title := t; uri := u |} |}.

Definition bare_chunk : GroundingChunk := {| web := None |}.

(** Ten chunks, six of them with a usable link. *)
Definition mixed_chunks : list GroundingChunk :=
  [ web_chunk (Some (js "Reuters")) (Some (js "https://reuters.example/a"));
    bare_chunk;
    web_chunk None (Some (js "https://sec.example/b"));
    web_chunk (Some (js "No link")) None;
    web_chunk (Some []) (Some (js "https://c.example"));
    web_chunk (Some (js "Hash")) (Some (js "#"));
    web_chunk (Some (js "Empty link")) (Some []);
    web_chunk (Some (js "D")) (Some (js "https://d.example"));
    web_chunk (Some (js "E")) (Some (js "https://e.example"));
    web_chunk (Some (js "F")) (Some (js "https://f.example")) ].

(** Four chunks, none with a usable link. *)
Definition unusable_chunks : list GroundingChunk :=
  [ bare_chunk;
    web_chunk (Some (js "No link")) None;
    web_chunk (Some (js "Hash")) (Some (js "#"));
    web_chunk (Some (js "Empty link")) (Some []) ].

Definition candidate (chunks : list GroundingChunk) : Candidate :=
  {| groundingMetadata := Some {| groundingChunks := Some chunks |} |}.

(** A response carrying [payload] and the given candidates. *)
Definition response_with (payload : jsstring) (cs : list Candidate)
  : GenerateContentResponse :=
  {| text := Some payload; candidates := Some cs |}.

(** The first five usable citations of [mixed_chunks], as attached. *)
Definition mixed_citations : JValue :=
  JArr [ JObj [ (js "title", JStr (js "Reuters")); (js "uri", JStr (js "https://reuters.example/a")) ];
         JObj [ (js "title", JStr (js "Market Source")); (js "uri", JStr (js "https://sec.example/b")) ];
         JObj [ (js "title", JStr (js "Market Source")); (js "uri", JStr (js "https://c.example")) ];
         JObj [ (js "title", JStr (js "D")); (js "uri", JStr (js "https://d.example")) ];
         JObj [ (js "title", JStr (js "E")); (js "uri", JStr (js "https://e.example")) ] ].

(** JSON text, piece by piece. *)
Definition member (k : string) (v : jsstring) : jsstring := q k ++ js ":" ++ v.
Definition object_text (members : list jsstring) : jsstring :=
  js "{" ++ join (js ",") members ++ js "}".
Definition array_text (items : list jsstring) : jsstring :=
  js "[" ++ join (js ",") items ++ js "]".

(** A record with every required field, as text and as [JSON.parse]
    returns it; [more] are further members at its end. *)
Definition record_text (ticker name rec : string) (more : list jsstring) : jsstring :=
  object_text
    ([ member "ticker" (q ticker);
       member "companyName" (q name);
       member "currentPrice" (js "150");
       member "value"
         (object_text [ member "forwardPE" (js "28"); member "forwardPE_2YR" (js "25");
                        member "sectorMedianPE" (js "22");
                        member "valuationGrade" (q "Fair");
                        member "assessment" (q "In line with the sector") ]);
       member "quality"
         (object_text [ member "roe" (js "40"); member "roic" (js "30");
                        member "debtToEquity" (js "1");
                        member "dcfIntrinsicValue" (js "0");
                        member "dcfMarginOfSafety" (js "0");
                        member "qualityScore" (js "85");
                        member "assessment" (q "High returns on capital") ]);
       member "momentum"
         (object_text [ member "revisionsUp90D" (js "12"); member "revisionsDown90D" (js "3");
                        member "revisionsGrade" (q "Strong");
                        member "assessment" (q "Estimates are rising") ]);
       member "deepAnalysis" (q "Narrative");
       member "finalRecommendation" (q rec);
       member "riskFactors" (array_text [ q "Regulation"; q "Supply chain" ]) ]
     ++ more).

Definition record_value (ticker name rec : string) (more : list (jsstring * JValue))
  : JValue :=
  JObj
    ([ (js "ticker", JStr (js ticker));
       (js "companyName", JStr (js name));
       (js "currentPrice", JNum (of_Z 150));
       (js "value",
         JObj [ (js "forwardPE", JNum (of_Z 28)); (js "forwardPE_2YR", JNum (of_Z 25));
                (js "sectorMedianPE", JNum (of_Z 22));
                (js "valuationGrade", JStr (js "Fair"));
                (js "assessment", JStr (js "In line with the sector")) ]);
       (js "quality",
         JObj [ (js "roe", JNum (of_Z 40)); (js "roic", JNum (of_Z 30));
                (js "debtToEquity", JNum (of_Z 1));
                (js "dcfIntrinsicValue", JNum (of_Z 0));
                (js "dcfMarginOfSafety", JNum (of_Z 0));
                (js "qualityScore", JNum (of_Z 85));
                (js "assessment", JStr (js "High returns on capital")) ]);
       (js "momentum",
         JObj [ (js "revisionsUp90D", JNum (of_Z 12)); (js "revisionsDown90D", JNum (of_Z 3));
                (js "revisionsGrade", JStr (js "Strong"));
                (js "assessment", JStr (js "Estimates are rising")) ]);
       (js "deepAnalysis", JStr (js "Narrative"));
       (js "finalRecommendation", JStr (js rec));
       (js "riskFactors", JArr [ JStr (js "Regulation"); JStr (js "Supply chain") ]) ]
     ++ more).

(** A batch of two records; the first carries a [sources] of its own. *)
Definition batch_text : jsstring :=
  object_text
    [ member "results"
        (array_text
           [ record_text "AAPL" "Apple Inc." "Buy" [ member "sources" (array_text [ q "mine" ]) ];
             record_text "NVDA" "NVIDIA Corporation" "Strong Buy" [] ]) ].

Definition batch_items : list JValue :=
  [ record_value "AAPL" "Apple Inc." "Buy" [ (js "sources", JArr [ JStr (js "mine") ]) ];
    record_value "NVDA" "NVIDIA Corporation" "Strong Buy" [] ].

Definition batch_value : JValue := JObj [ (js "results", JArr batch_items) ].

(** The host of the examples, knowing [batch_text] as well. *)
Definition rich_parse (t : jsstring) : Result JValue :=
  if str_eqb t batch_text then Ok batch_value else parse t.

Definition rich_host : Host :=
  {| JSON_parse := rich_parse;
     TypeError_message := type_error_message;
     toUpperCase := map upper_unit;
     toFixed := fixed |}.

End Demo.

(* ================================================================== *)
(** * Part II: properties                                              *)
(* ================================================================== *)

(** ** Facts about binary64 numbers *)

Section NumberFacts.

Lemma SFcompare_refl (a : number) : is_nan a = false -> SFcompare a a = Some Eq.
Proof.
  destruct a as [s|s| |s m e]; simpl; try discriminate; intros _.
  - reflexivity.
  - destruct s; reflexivity.
  - rewrite Z.compare_refl, Pos.compare_cont_refl. destruct s; reflexivity.
Qed.

Lemma SFcompare_antisym (a b : number) :
  SFcompare b a = option_map CompOpp (SFcompare a b).
Proof.
  destruct a as [s|s| |s m e], b as [s'|s'| |s' m' e']; simpl;
    try reflexivity; try (destruct s; reflexivity); try (destruct s'; reflexivity);
    try (destruct s, s'; reflexivity).
  pose proof (Pos.compare_cont_antisym m m' Eq) as P; simpl in P.
  destruct s, s'; simpl; try reflexivity;
    rewrite (Z.compare_antisym e e'); destruct (e ?= e')%Z; simpl; try reflexivity;
    rewrite P; reflexivity.
Qed.

Lemma SFcompare_defined (a b : number) :
  is_nan a = false -> is_nan b = false -> exists c, SFcompare a b = Some c.
Proof.
  destruct a, b; simpl; try discriminate; intros _ _; eexists; reflexivity.
Qed.

Lemma num_le_refl (a : number) : is_nan a = false -> num_le a a = true.
Proof.
  intros Ha. unfold num_le, SFleb. rewrite (SFcompare_refl a Ha). reflexivity.
Qed.

Lemma num_gt_not_le (a b : number) : num_le a b = true -> num_gt a b = false.
Proof.
  unfold num_le, num_gt, SFleb, SFltb. rewrite (SFcompare_antisym a b).
  destruct (SFcompare a b) as [[]|]; simpl; congruence.
Qed.

Lemma Math_max_cases (a b : number) :
  is_nan a = false -> is_nan b = false ->
  (Math_max a b = a /\ num_le b a = true) \/ (Math_max a b = b /\ num_le a b = true).
Proof.
  intros Ha Hb. unfold Math_max, num_le, SFleb. rewrite (SFcompare_antisym a b).
  destruct (SFcompare_defined a b Ha Hb) as [c E]. rewrite E. destruct c; simpl; auto.
  destruct a as [[]| | |]; auto.
Qed.

Lemma Math_min_cases (a b : number) :
  is_nan a = false -> is_nan b = false ->
  (Math_min a b = a /\ num_le a b = true) \/ (Math_min a b = b /\ num_le b a = true).
Proof.
  intros Ha Hb. unfold Math_min, num_le, SFleb. rewrite (SFcompare_antisym a b).
  destruct (SFcompare_defined a b Ha Hb) as [c E]. rewrite E. destruct c; simpl; auto.
  destruct a as [[]| | |]; auto.
Qed.

Lemma shr_1_nonneg (mrs : shr_record) :
  (0 <= shr_m mrs)%Z -> (0 <= shr_m (shr_1 mrs))%Z.
Proof.
  destruct mrs as [m r s]; simpl.
  destruct m as [|p|p]; simpl; try lia; destruct p; simpl; lia.
Qed.

Lemma iter_shr_1_nonneg (p : positive) (mrs : shr_record) :
  (0 <= shr_m mrs)%Z -> (0 <= shr_m (iter_pos shr_1 p mrs))%Z.
Proof.
  revert mrs; induction p as [p IH|p IH|]; intros mrs Hm; simpl.
  - apply IH, IH, shr_1_nonneg, Hm.
  - apply IH, IH, Hm.
  - apply shr_1_nonneg, Hm.
Qed.

Lemma shr_fexp_nonneg (m e : Z) (l : location) :
  (0 <= m)%Z -> (0 <= shr_m (fst (shr_fexp prec emax m e l)))%Z.
Proof.
  intros Hm. unfold shr_fexp, shr.
  assert (H0 : (0 <= shr_m (shr_record_of_loc m l))%Z).
  { destruct l as [|[]]; simpl; exact Hm. }
  destruct (fexp prec emax (Zdigits2 m + e) - e)%Z; simpl; auto.
  apply iter_shr_1_nonneg, H0.
Qed.

Lemma round_nearest_even_nonneg (m : Z) (l : location) :
  (0 <= m)%Z -> (0 <= round_nearest_even m l)%Z.
Proof.
  intros Hm. destruct l as [|[]]; simpl; try lia.
  destruct (Z.even m); lia.
Qed.

(** Rounding a non-negative mantissa yields a zero, a finite number or an
    infinity. *)
Lemma binary_round_aux_not_nan (sx : bool) (mx ex : Z) (lx : location) :
  (0 <= mx)%Z -> is_nan (binary_round_aux prec emax sx mx ex lx) = false.
Proof.
  intros Hm. unfold binary_round_aux.
  pose proof (shr_fexp_nonneg ex lx Hm) as H1.
  destruct (shr_fexp prec emax mx ex lx) as [mrs' e']; simpl in H1.
  pose proof (shr_fexp_nonneg e' loc_Exact
                (round_nearest_even_nonneg (loc_of_shr_record mrs') H1)) as H2.
  destruct (shr_fexp prec emax (round_nearest_even (shr_m mrs') (loc_of_shr_record mrs')) e' loc_Exact)
    as [mrs'' e'']; simpl in H2.
  destruct (shr_m mrs'') as [|p|p]; try reflexivity.
  - destruct (e'' <=? emax - prec)%Z; reflexivity.
  - lia.
Qed.

Lemma binary_round_not_nan (sx : bool) (mx : positive) (ex : Z) :
  is_nan (binary_round prec emax sx mx ex) = false.
Proof.
  unfold binary_round.
  destruct (shl_align mx ex (fexp prec emax (Z.pos (digits2_pos mx) + ex))) as [mz ez].
  apply binary_round_aux_not_nan; lia.
Qed.

Lemma binary_normalize_not_nan (m e : Z) (szero : bool) :
  is_nan (binary_normalize prec emax m e szero) = false.
Proof.
  destruct m; simpl; auto using binary_round_not_nan.
Qed.

Lemma num_sub_not_nan (a b : number) :
  finite a = true -> finite b = true -> is_nan (num_sub a b) = false.
Proof.
  destruct a as [s|s| |s m e], b as [s'|s'| |s' m' e']; simpl; try discriminate; intros _ _.
  - destruct s, s'; reflexivity.
  - reflexivity.
  - reflexivity.
  - apply binary_normalize_not_nan.
Qed.

Lemma num_div_not_nan (a : number) (s : bool) (m : positive) (e : Z) :
  is_nan a = false -> is_nan (num_div a (S754_finite s m e)) = false.
Proof.
  destruct a as [sa|sa| |sa ma ea]; simpl; try discriminate; intros _; try reflexivity.
  unfold SFdiv_core_binary.
  set (m' := match (ea - e - _)%Z with Z0 => Z.pos ma | Z.pos _ => _ | Z.neg _ => 0%Z end).
  assert (Hm' : (0 <= m')%Z).
  { subst m'. destruct (ea - e - _)%Z; try lia. apply Z.shiftl_nonneg. lia. }
  pose proof (Z_div_mod m' (Z.pos m) eq_refl) as D.
  destruct (Z.div_eucl m' (Z.pos m)) as [q r].
  apply binary_round_aux_not_nan. nia.
Qed.

Lemma num_mul_not_nan (a : number) (s : bool) (m : positive) (e : Z) :
  is_nan a = false -> is_nan (num_mul a (S754_finite s m e)) = false.
Proof.
  destruct a as [sa|sa| |sa ma ea]; simpl; try discriminate; intros _; try reflexivity.
  apply binary_round_aux_not_nan. lia.
Qed.

End NumberFacts.

(** ** The progress estimator *)

Section Progress.
Import App.

(** The percentage the tick computes from two finite clock readings is a
    number of at most 95. *)
Lemma percent_bounded (startTime now : number) :
  finite startTime = true -> finite now = true ->
  let percent := Math_min (of_Z 95) (num_mul (num_div (num_sub now startTime) duration) (of_Z 90)) in
  is_nan percent = false /\ num_le percent (of_Z 95) = true.
Proof.
  intros Hs Hn.
  assert (Hx : is_nan (num_mul (num_div (num_sub now startTime) duration) (of_Z 90)) = false).
  { apply (num_mul_not_nan _ false 6333186975989760 (-46)).
    apply (num_div_not_nan _ false 5497558138880000 (-39)).
    apply num_sub_not_nan; assumption. }
  cbv zeta.
  destruct (Math_min_cases (of_Z 95) _ eq_refl Hx) as [[-> _]|[-> Hle]].
  - split; reflexivity.
  - split; assumption.
Qed.

Lemma tick_spec (startTime now : number) (prev : AnalysisState) :
  finite startTime = true -> finite now = true ->
  is_nan (progress prev) = false -> num_le (progress prev) (of_Z 95) = true ->
  let next := tick startTime now prev in
  is_nan (progress next) = false
  /\ num_le (progress prev) (progress next) = true
  /\ num_le (progress next) (of_Z 95) = true.
Proof.
  intros Hs Hn Hp H95. unfold tick.
  destruct (num_ge (progress prev) (of_Z 95)).
  - cbv zeta. auto using num_le_refl.
  - destruct (percent_bounded startTime now Hs Hn) as [Hx Hx95].
    cbv zeta in *. unfold set_progress; cbn [progress].
    destruct (Math_max_cases (progress prev) _ Hp Hx) as [[-> _]|[-> Hle]];
      auto using num_le_refl.
Qed.

Context `{Host}.

Lemma react_Tick (w : World) (startTime now : number) :
  progressInterval w = Some startTime ->
  react w (Tick now) = setState w (tick startTime now (state w)).
Proof. intros E. simpl. rewrite E. reflexivity. Qed.

Lemma tick_frame (startTime now : number) (prev : AnalysisState) :
  let next := tick startTime now prev in
  loading next = loading prev /\ step next = step prev
  /\ error next = error prev /\ data next = data prev.
Proof.
  unfold tick. destruct (num_ge (progress prev) (of_Z 95)); cbv zeta; simpl; auto.
Qed.

(** A run of ticks under a live interval: the progress never decreases,
    stays at or below 95, and nothing else in the state moves. *)
Lemma ticks_invariant (nows : list number) :
  forall (w : World) (startTime : number),
  progressInterval w = Some startTime ->
  finite startTime = true ->
  Forall (fun now => finite now = true) nows ->
  is_nan (progress (state w)) = false ->
  num_le (progress (state w)) (of_Z 95) = true ->
  nondecreasing (progress (state w) :: progress_trace w nows)
  /\ Forall (fun p => num_le p (of_Z 95) = true) (progress_trace w nows)
  /\ loading (state (run w (map Tick nows))) = loading (state w)
  /\ step (state (run w (map Tick nows))) = step (state w).
Proof.
  induction nows as [|now rest IH]; intros w startTime Hi Hs Hf Hn H95.
  - simpl. auto.
  - inversion Hf as [|? ? Hnow Hrest]; subst.
    destruct (tick_spec startTime now (state w) Hs Hnow Hn H95) as (Hn' & Hle & H95').
    destruct (tick_frame startTime now (state w)) as (Hl & Hst & _ & _).
    cbn [progress_trace map run fold_left]. fold (run (react w (Tick now)) (map Tick rest)).
    rewrite (react_Tick w now Hi).
    destruct (IH (setState w (tick startTime now (state w))) startTime Hi Hs Hrest Hn' H95')
      as (Hmono & Hall & Hl' & Hst').
    cbn [state setState] in *.
    repeat split.
    + exact Hle.
    + exact Hmono.
    + constructor; assumption.
    + rewrite Hl'. exact Hl.
    + rewrite Hst'. exact Hst.
Qed.

(** C5.  In a Processing episode -- a submission that starts a request,
    followed by any series of ticks at finite clock readings -- the progress
    starts at 5, never decreases from one tick to the next and never exceeds
    95, while the state stays loading and processing; progress is set to
    exactly 100 only when the request settles, by the [finishProgress] that
    every continuation of [handleSearch] starts with, and a non-empty result
    list leaves it there. *)
Theorem progress_episode (w : World) (t0 : number) (nows : list number) :
  starts_request w (Submit t0) = true ->
  finite t0 = true ->
  Forall (fun now => finite now = true) nows ->
  let w1 := react w (Submit t0) in
  let wn := run w1 (map Tick nows) in
  let shown := progress (state w1) :: progress_trace w1 nows in
  progress (state w1) = of_Z 5
  /\ nondecreasing shown
  /\ Forall (fun p => num_le p (of_Z 95) = true /\ num_gt p (of_Z 95) = false) shown
  /\ (loading (state wn) = true /\ step (state wn) = processing)
  /\ progress (state (finishProgress wn)) = of_Z 100
  /\ (forall awaited,
        (exists results, handleSearch_resume awaited wn
                         = set_timeouts (finishProgress wn) (timeouts wn ++ [results]))
        \/ (exists err, handleSearch_resume awaited wn
                        = setState (finishProgress wn) (failed (error_text err))))
  /\ (forall results, results <> [] ->
        progress (state (handleSearch_resume (Ok results) wn)) = of_Z 100).
Proof.
  intros Hstart Ht0 Hnows. cbv zeta.
  assert (E : react w (Submit t0) =
              set_awaiting
                (send (startProgressSimulation t0
                         (setState w {| loading := true; progress := of_Z 0; error := None;
                                        data := None; step := processing |}))
                      (GeminiService.request (tickers_of (input w))))
                (awaiting w ++ [tickers_of (input w)])).
  { simpl in Hstart. apply andb_true_iff in Hstart. destruct Hstart as [Hb Ht].
    simpl. unfold handleSearch. rewrite Hb. simpl.
    destruct (Nat.eqb (List.length (tickers_of (input w))) 0); [discriminate|reflexivity]. }
  rewrite E.
  match goal with |- context [progress_trace ?x nows] => set (w1 := x) end.
  destruct (@ticks_invariant nows w1 t0 eq_refl Ht0 Hnows eq_refl eq_refl)
    as (Hmono & Hall & Hl & Hst).
  split; [reflexivity|]. split; [exact Hmono|]. split.
  { constructor; [split; reflexivity|].
    eapply Forall_impl; [|exact Hall]. intros p Hp. split; [exact Hp|].
    apply num_gt_not_le, Hp. }
  split; [split; [rewrite Hl|rewrite Hst]; reflexivity|].
  split; [reflexivity|]. split.
  { intros awaited. unfold handleSearch_resume.
    destruct (check_results awaited) as [results|err];
      [left; exists results|right; exists err]; reflexivity. }
  intros results Hne. unfold handleSearch_resume, check_results. simpl.
  destruct results as [|r rs]; [congruence|]. reflexivity.
Qed.

End Progress.

(** The search for AAPL started at clock 1000, ticked at 1100, 6000 and
    20000. *)
Lemma progress_episode_witness :
  let w1 := Demo.searching in
  let nows := [of_Z 1100; of_Z 6000; of_Z 20000] in
  App.progress (App.state w1) = of_Z 5
  /\ App.nondecreasing (App.progress (App.state w1) :: App.progress_trace w1 nows)
  /\ App.progress_trace w1 nows = [of_Z 5; of_Z 45; of_Z 95].
Proof.
  cbv zeta.
  destruct (@progress_episode Demo.host
              (App.react App.initial_world (App.Change (js "aapl")))
              (of_Z 1000) [of_Z 1100; of_Z 6000; of_Z 20000])
    as (H5 & Hmono & _).
  - reflexivity.
  - reflexivity.
  - repeat constructor.
  - split; [exact H5|]. split; [exact Hmono|]. vm_compute. reflexivity.
Defined.

(** ** Ticker parsing *)

Section Tickers.
Import App.
Context `{Host}.

(** After the empty pieces are dropped, splitting at whole runs of
    separators and splitting at every separator leave the same tokens. *)
Lemma split_scan_split_each (f : jsstring -> jsstring) (s : jsstring) :
  f [] = [] ->
  (forall acc, filter nonempty (map f (split_scan acc false s))
               = filter nonempty (map f (Spec.split_each acc s)))
  /\ filter nonempty (map f (split_scan [] true s))
     = filter nonempty (map f (Spec.split_each [] s)).
Proof.
  intros Hf. induction s as [|c s' [IH1 IH2]].
  - split; reflexivity.
  - split.
    + intros acc. simpl. destruct (isSeparator c).
      * simpl. rewrite IH2. reflexivity.
      * apply IH1.
    + simpl. destruct (isSeparator c).
      * simpl. rewrite Hf. simpl. exact IH2.
      * apply IH1.
Qed.

Lemma trim_empty : trim [] = [].
Proof. reflexivity. Qed.

Lemma tickers_of_refines (text : jsstring) :
  toUpperCase [] = [] -> tickers_of text = Spec.ticker_tokens text.
Proof.
  intros Hup. unfold tickers_of, Spec.ticker_tokens, split.
  rewrite map_map.
  apply (split_scan_split_each (fun t => toUpperCase (trim t)) text).
  rewrite trim_empty. exact Hup.
Qed.

(** C4.  For every input text, the ticker list [handleSearch] derives equals
    the specification's tokens -- the text split on commas/whitespace, each
    token trimmed and uppercased, the empty ones discarded, in the original
    order -- and a submission that starts a request calls [analyzeStocks]
    with exactly that list.  (Uppercasing the empty string gives the empty
    string.) *)
Theorem tickers_as_specified (w : World) (now : number) :
  toUpperCase [] = [] ->
  tickers_of (input w) = Spec.ticker_tokens (input w)
  /\ (starts_request w (Submit now) = true ->
      awaiting (react w (Submit now)) = awaiting w ++ [Spec.ticker_tokens (input w)]
      /\ sent (react w (Submit now))
         = sent w ++ [GeminiService.request (Spec.ticker_tokens (input w))]).
Proof.
  intros Hup. pose proof (tickers_of_refines (input w) Hup) as E.
  split; [exact E|]. intros Hstart. rewrite <- E.
  simpl in Hstart. apply andb_true_iff in Hstart. destruct Hstart as [Hb Ht].
  simpl. unfold handleSearch. rewrite Hb. simpl.
  destruct (Nat.eqb (List.length (tickers_of (input w))) 0); [discriminate|].
  split; reflexivity.
Qed.

(** *** Blank input *)

Lemma trimStart_blank (s : jsstring) :
  forallb isWhiteSpace s = true -> trimStart s = [].
Proof.
  induction s as [|c s IH]; simpl; [reflexivity|].
  intros Hs. apply andb_true_iff in Hs. destruct Hs as [-> Hs]. exact (IH Hs).
Qed.

Lemma trim_blank (s : jsstring) : forallb isWhiteSpace s = true -> trim s = [].
Proof. intros Hs. unfold trim. rewrite (trimStart_blank s Hs). reflexivity. Qed.

(** C9.  Submitting while the input is blank (empty or made of whitespace
    only) leaves the whole component as it was -- every field of the state,
    the timers and the pending work -- and sends no request; submitting
    again changes nothing either. *)
Theorem blank_submit_is_noop (w : World) (now now' : number) :
  forallb isWhiteSpace (input w) = true ->
  react w (Submit now) = w
  /\ state (react w (Submit now)) = state w
  /\ sent (react w (Submit now)) = sent w
  /\ react (react w (Submit now)) (Submit now') = w.
Proof.
  intros Hblank.
  assert (E : forall t, react w (Submit t) = w).
  { intros t. simpl. unfold handleSearch. rewrite (trim_blank _ Hblank). reflexivity. }
  rewrite !E. auto.
Qed.

End Tickers.

(** The example of the specification: [" aapl,  nvda ,tsla"]. *)
Lemma tickers_as_specified_witness :
  let w := App.setInput App.initial_world (js " aapl,  nvda ,tsla") in
  App.tickers_of (App.input w) = Spec.ticker_tokens (App.input w)
  /\ App.tickers_of (App.input w) = [js "AAPL"; js "NVDA"; js "TSLA"]
  /\ App.awaiting (App.react w (App.Submit (of_Z 0))) = [[js "AAPL"; js "NVDA"; js "TSLA"]].
Proof.
  cbv zeta.
  destruct (@tickers_as_specified Demo.host
              (App.setInput App.initial_world (js " aapl,  nvda ,tsla")) (of_Z 0))
    as [E S].
  - reflexivity.
  - split; [exact E|]. split; [reflexivity|].
    destruct S as [Sa _]; [reflexivity|]. rewrite Sa. reflexivity.
Defined.

(** A tab, two spaces and a no-break space in the field. *)
Lemma blank_submit_is_noop_witness :
  let w := App.setInput App.initial_world [9; 32; 32; 160]%N in
  App.react w (App.Submit (of_Z 1000)) = w
  /\ App.sent (App.react w (App.Submit (of_Z 1000))) = [].
Proof.
  cbv zeta.
  destruct (@blank_submit_is_noop Demo.host
              (App.setInput App.initial_world [9; 32; 32; 160]%N) (of_Z 1000) (of_Z 2000))
    as (E & _ & S & _).
  - reflexivity.
  - split; [exact E|exact S].
Defined.

(** ** The orchestrator *)

Section Orchestrator.
Import App GeminiService.
Context `{Host}.

Lemma resume_throw (awaited : Result (list JValue)) (err : JsError) (w : World) :
  check_results awaited = Throw err ->
  handleSearch_resume awaited w = setState (finishProgress w) (failed (error_text err)).
Proof. intros E. unfold handleSearch_resume. rewrite E. reflexivity. Qed.

Lemma resume_ok (awaited : Result (list JValue)) (results : list JValue) (w : World) :
  check_results awaited = Ok results ->
  handleSearch_resume awaited w
  = set_timeouts (finishProgress w) (timeouts w ++ [results]).
Proof. intros E. unfold handleSearch_resume. rewrite E. reflexivity. Qed.

Lemma check_results_ok (awaited : Result (list JValue)) (results : list JValue) :
  check_results awaited = Ok results -> awaited = Ok results /\ results <> [].
Proof.
  unfold check_results. destruct awaited as [rs|e]; simpl; [|discriminate].
  destruct rs; simpl; [discriminate|]. intros E; inversion E; subst. split; congruence.
Qed.

Lemma reachable_run (w : World) (events : list Event) :
  reachable w -> reachable (run w events).
Proof.
  revert w. induction events as [|e rest IH]; intros w Hr; [exact Hr|].
  apply IH, reachable_react, Hr.
Qed.

Lemma react_Settle (w : World) (tickers : list jsstring) (rest : list (list jsstring))
      (net : Settled) :
  awaiting w = tickers :: rest ->
  react w (Settle net)
  = handleSearch_resume (analyzeStocks tickers net) (set_awaiting w rest).
Proof. intros E. simpl. rewrite E. reflexivity. Qed.

(** The state that [handleSearch] sets before it awaits. *)
Lemma handleSearch_started (w : World) (now : number) :
  starts_request w (Submit now) = true ->
  state (react w (Submit now))
  = {| loading := true; progress := of_Z 5; error := None; data := None;
       step := processing |}.
Proof.
  intros Hstart. simpl in Hstart. apply andb_true_iff in Hstart. destruct Hstart as [Hb Ht].
  simpl. unfold handleSearch. rewrite Hb. simpl.
  destruct (Nat.eqb (List.length (tickers_of (input w))) 0); [discriminate|reflexivity].
Qed.

Lemma handleSearch_ignored (w : World) (now : number) :
  starts_request w (Submit now) = false -> react w (Submit now) = w.
Proof.
  intros Hstart. simpl in *. unfold handleSearch.
  destruct (nonempty (trim (input w))); simpl in *; [|reflexivity].
  destruct (Nat.eqb (List.length (tickers_of (input w))) 0); [reflexivity|discriminate].
Qed.

Lemma react_coherent (w : World) (e : Event) :
  coherent (state w) -> coherent (state (react w e)).
Proof.
  intros Hc. destruct e as [text|now|now|net| |].
  - exact Hc.
  - destruct (starts_request w (Submit now)) eqn:E.
    + rewrite (handleSearch_started w now E). reflexivity.
    + rewrite (handleSearch_ignored w now E). exact Hc.
  - simpl. destruct (progressInterval w) as [startTime|]; [|exact Hc].
    destruct (tick_frame startTime now (state w)) as (Hl & Hs & _).
    unfold coherent in *. cbn [state setState]. rewrite Hl, Hs. exact Hc.
  - simpl. destruct (awaiting w) as [|tickers rest]; [exact Hc|].
    destruct (check_results (analyzeStocks tickers net)) as [results|err] eqn:E.
    + rewrite (resume_ok _ _ E). exact Hc.
    + rewrite (resume_throw _ _ E). reflexivity.
  - simpl. destruct (timeouts w) as [|results rest]; [exact Hc|reflexivity].
  - exact Hc.
Qed.

(** C10.  In every reachable state of the component -- the initial one and
    the one after any event: input change, submit, tick, settlement with
    success or failure, publication, error dismissal -- [loading] is true if
    and only if [step] is [processing]; and the publication of results, the
    terminal Success state, carries [step = idle] with [loading = false]. *)
Theorem loading_iff_processing (w : World) :
  reachable w ->
  (loading (state w) = true <-> step (state w) = processing)
  /\ (forall results rest, timeouts w = results :: rest ->
        let s := state (react w Timeout) in
        data s = Some results /\ error s = None /\ step s = idle /\ loading s = false).
Proof.
  intros Hr. split.
  - assert (Hc : coherent (state w)).
    { induction Hr as [|w e _ IH]; [reflexivity|exact (react_coherent w e IH)]. }
    unfold coherent in Hc. rewrite Hc. destruct (step (state w)); split; congruence.
  - intros results rest E. simpl. rewrite E. simpl. auto.
Qed.

(** C6.  An event that starts a request leaves both [error] and [data]
    null; an event that completes a request cycle -- a settlement that
    fails, or the publication of the results -- leaves exactly one of them
    non-null. *)
Theorem error_xor_data (w : World) (e : Event) :
  (starts_request w e = true ->
     error (state (react w e)) = None /\ data (state (react w e)) = None)
  /\ (completes_cycle w e = true -> one_populated (state (react w e))).
Proof.
  split.
  - intros Hstart. destruct e as [text|now|now|net| |]; try discriminate.
    rewrite (handleSearch_started w now Hstart). split; reflexivity.
  - intros Hc. destruct e as [text|now|now|net| |]; try discriminate; simpl in Hc.
    + destruct (awaiting w) as [|tickers rest] eqn:Ea; [discriminate|].
      rewrite (react_Settle w net Ea).
      destruct (check_results (analyzeStocks tickers net)) as [results|err] eqn:E;
        [discriminate|].
      rewrite (resume_throw _ _ E). left. split; [discriminate|reflexivity].
    + simpl. destruct (timeouts w) as [|results rest]; [discriminate|].
      right. split; [reflexivity|discriminate].
Qed.

(** C2, with the message the code throws.  When the request resolves with a result list of length
    zero, the orchestrator enters the Failed state -- not loading, idle,
    progress 0, [data] null -- with the error message "No valid financial
    data found for the provided tickers." and schedules no publication. *)
Theorem empty_results_is_failure (w : World) (tickers : list jsstring)
        (rest : list (list jsstring)) (net : Settled) :
  awaiting w = tickers :: rest ->
  analyzeStocks tickers net = Ok [] ->
  state (react w (Settle net))
  = failed (js "No valid financial data found for the provided tickers.")
  /\ timeouts (react w (Settle net)) = timeouts w.
Proof.
  intros Ea E. rewrite (react_Settle w net Ea), E.
  split; reflexivity.
Qed.

(** C3, with the messages the code surfaces.  A response failure is surfaced with the message of the
    error that was thrown: "Empty response from AI" for an EmptyResponse;
    the parser's message for a payload that is not JSON; the message of the
    [TypeError] for a payload without the [results] array.  The generic
    engine-error message stands in only for an empty message.  In each case
    the state is the Failed one, with [data] null. *)
Theorem response_failure_messages (w : World) (tickers : list jsstring)
        (rest : list (list jsstring)) (r : GenerateContentResponse) :
  awaiting w = tickers :: rest ->
  let s := state (react w (Settle (Fulfilled r))) in
  (Spec.EmptyResponse r -> s = failed (js "Empty response from AI"))
  /\ (forall t e, text r = Some t -> nonempty t = true -> JSON_parse t = Throw e ->
        s = failed (error_text e))
  /\ (forall t parsed, text r = Some t -> nonempty t = true -> JSON_parse t = Ok parsed ->
        Spec.results_array parsed = None ->
        exists k, s = failed (error_text (TypeError k)))
  /\ (forall e, error_text e = if nonempty (err_message e) then err_message e
                               else generic_message).
Proof.
  intros Ea. cbv zeta. rewrite (react_Settle w (Fulfilled r) Ea).
  repeat split.
  - intros [E|E]; unfold handleSearch_resume, check_results, analyzeStocks;
      cbn [bind]; rewrite E; reflexivity.
  - intros t e Et Hne Ep. rewrite (@resume_throw _ e); [reflexivity|].
    unfold check_results, analyzeStocks. simpl. rewrite Et, Hne. simpl. rewrite Ep. reflexivity.
  - intros t parsed Et Hne Ep Hr.
    assert (X : exists k, check_results (analyzeStocks tickers (Fulfilled r))
                          = Throw (TypeError k)).
    { unfold check_results, analyzeStocks. simpl. rewrite Et, Hne. simpl. rewrite Ep. simpl.
      destruct parsed as [| | | | |props]; simpl in *;
        try (eexists; reflexivity).
      destruct (get_prop (js "results") props) as [[| | | | |]|]; simpl;
        try discriminate; eexists; reflexivity. }
    destruct X as [k X]. exists k. rewrite (resume_throw _ _ X). reflexivity.
Qed.

End Orchestrator.

(** AAPL is searched for, the estimator ticks, the service answers with one
    result; the publication is pending. *)
Lemma loading_iff_processing_witness :
  let w := App.run App.initial_world
             [ App.Change (js "aapl"); App.Submit (of_Z 1000); App.Tick (of_Z 6000);
               App.Settle (GeminiService.Fulfilled (Demo.response Demo.one_blank_result_text 3)) ] in
  (App.loading (App.state w) = true <-> App.step (App.state w) = App.processing)
  /\ App.loading (App.state w) = true
  /\ App.step (App.state (App.react w App.Timeout)) = App.idle
  /\ App.loading (App.state (App.react w App.Timeout)) = false.
Proof.
  cbv zeta.
  destruct (@loading_iff_processing Demo.host
              (App.run App.initial_world
                 [ App.Change (js "aapl"); App.Submit (of_Z 1000); App.Tick (of_Z 6000);
                   App.Settle (GeminiService.Fulfilled
                                 (Demo.response Demo.one_blank_result_text 3)) ]))
    as [I P].
  - apply reachable_run, App.reachable_initial.
  - split; [exact I|]. split; [reflexivity|].
    destruct (P _ _ eq_refl) as (_ & _ & Hs & Hl). split; [exact Hs|exact Hl].
Defined.

(** The submission of AAPL starts a request; its rejection completes the
    cycle. *)
Lemma error_xor_data_witness :
  let w0 := App.setInput App.initial_world (js "aapl") in
  let w1 := App.react w0 (App.Submit (of_Z 1000)) in
  let w2 := App.react w1 (App.Settle (GeminiService.Rejected (Error "Failed to fetch"))) in
  (App.error (App.state w1) = None /\ App.data (App.state w1) = None)
  /\ App.one_populated (App.state w2)
  /\ App.error (App.state w2) = Some (js "Failed to fetch").
Proof.
  cbv zeta. split; [|split].
  - apply (@error_xor_data Demo.host). reflexivity.
  - apply (@error_xor_data Demo.host). reflexivity.
  - reflexivity.
Defined.

Lemma empty_results_is_failure_witness :
  let net := GeminiService.Fulfilled (Demo.response Demo.empty_results_text 0) in
  App.state (App.react Demo.searching (App.Settle net))
  = App.failed (js "No valid financial data found for the provided tickers.")
  /\ App.timeouts (App.react Demo.searching (App.Settle net)) = [].
Proof.
  cbv zeta.
  apply (@empty_results_is_failure Demo.host Demo.searching [js "AAPL"] []); reflexivity.
Defined.

(** C2 as the specification words it fails: an empty result list is
    reported with another message than the one quoted there. *)
Lemma empty_results_message_not_as_quoted :
  GeminiService.analyzeStocks [js "AAPL"]
    (GeminiService.Fulfilled (Demo.response Demo.empty_results_text 0)) = Ok []
  /\ App.error (App.state (App.react Demo.searching
        (App.Settle (GeminiService.Fulfilled (Demo.response Demo.empty_results_text 0)))))
     <> Some Spec.no_results_message.
Proof.
  split; [reflexivity|]. vm_compute. discriminate.
Qed.

Lemma response_failure_messages_witness :
  let empty := App.state (App.react Demo.searching
                 (App.Settle (GeminiService.Fulfilled Demo.silent_response))) in
  let malformed := App.state (App.react Demo.searching
                     (App.Settle (GeminiService.Fulfilled (Demo.response Demo.html_text 0)))) in
  empty = App.failed (js "Empty response from AI")
  /\ malformed = App.failed (js "Unexpected token < in JSON at position 0").
Proof.
  cbv zeta. split.
  - destruct (@response_failure_messages Demo.host Demo.searching [js "AAPL"] []
                Demo.silent_response eq_refl) as (He & _).
    apply He. left. reflexivity.
  - destruct (@response_failure_messages Demo.host Demo.searching [js "AAPL"] []
                (Demo.response Demo.html_text 0) eq_refl) as (_ & Hm & _).
    apply (Hm Demo.html_text
             (mkError (js "SyntaxError") (js "Unexpected token < in JSON at position 0")));
      reflexivity.
Defined.

(** C3 as the specification words it fails: an EmptyResponse and a
    MalformedResponse carry different messages, and the former is not the
    generic one. *)
Lemma response_failures_not_one_message :
  let empty := App.error (App.state (App.react Demo.searching
                 (App.Settle (GeminiService.Fulfilled Demo.silent_response)))) in
  let malformed := App.error (App.state (App.react Demo.searching
                     (App.Settle (GeminiService.Fulfilled (Demo.response Demo.html_text 0))))) in
  Spec.EmptyResponse Demo.silent_response
  /\ Spec.MalformedResponse (Demo.response Demo.html_text 0)
  /\ empty <> malformed
  /\ empty <> Some App.generic_message.
Proof.
  cbv zeta. split; [left; reflexivity|]. split.
  - exists Demo.html_text. split; [reflexivity|]. split; [reflexivity|exact I].
  - split; vm_compute; discriminate.
Qed.

(** ** The request/response contract *)

Section Contract.
Import GeminiService.
Context `{Host}.

Lemma str_eqb_eq (a b : jsstring) : str_eqb a b = true -> a = b.
Proof.
  revert b. induction a as [|x a IH]; intros [|y b]; simpl; try discriminate; auto.
  intros E. apply andb_true_iff in E. destruct E as [Ex Eab].
  apply N.eqb_eq in Ex. rewrite Ex, (IH b Eab). reflexivity.
Qed.

Lemma str_eqb_refl (a : jsstring) : str_eqb a a = true.
Proof.
  induction a as [|x a IH]; simpl; [reflexivity|]. rewrite N.eqb_refl. exact IH.
Qed.

Lemma get_prop_set_prop_same (k : jsstring) (v : JValue) (props : list (jsstring * JValue)) :
  get_prop k (set_prop k v props) = Some v.
Proof.
  induction props as [|[k0 v0] rest IH]; simpl.
  - rewrite str_eqb_refl. reflexivity.
  - destruct (str_eqb k k0) eqn:E; simpl.
    + rewrite str_eqb_refl. reflexivity.
    + rewrite E. exact IH.
Qed.

Lemma get_prop_set_prop_other (k' k : jsstring) (v : JValue)
      (props : list (jsstring * JValue)) :
  str_eqb k' k = false -> get_prop k' (set_prop k v props) = get_prop k' props.
Proof.
  intros Hk. induction props as [|[k0 v0] rest IH]; simpl.
  - rewrite Hk. reflexivity.
  - destruct (str_eqb k k0) eqn:E; simpl.
    + apply str_eqb_eq in E. subst k0. rewrite Hk. reflexivity.
    + rewrite IH. reflexivity.
Qed.

(** Setting a property that an object schema does not mention leaves
    conformance to it as it was. *)
Lemma conforms_set_prop_fresh (properties : list (jsstring * Schema))
      (required : list jsstring) (k : jsstring) (v : JValue)
      (props : list (jsstring * JValue)) :
  forallb (fun k' => negb (str_eqb k' k)) required = true ->
  forallb (fun p => negb (str_eqb (fst p) k)) properties = true ->
  conforms (OBJECT properties required) (JObj (set_prop k v props))
  = conforms (OBJECT properties required) (JObj props).
Proof.
  intros Hreq Hprops. cbn [conforms]. f_equal.
  - clear Hprops. induction required as [|k' required IH]; simpl in *; [reflexivity|].
    apply andb_true_iff in Hreq. destruct Hreq as [Hk Hreq].
    apply negb_true_iff in Hk. unfold has_prop at 1 3.
    rewrite get_prop_set_prop_other by exact Hk. rewrite (IH Hreq). reflexivity.
  - clear Hreq. induction properties as [|[k' sk] properties IH]; simpl in *; [reflexivity|].
    apply andb_true_iff in Hprops. destruct Hprops as [Hk Hprops].
    apply negb_true_iff in Hk.
    rewrite get_prop_set_prop_other by exact Hk. rewrite (IH Hprops). reflexivity.
Qed.

(** A record that conforms to the item schema still does once the sources
    are attached. *)
Lemma with_sources_conforms (srcs : list Source) (stock : JValue) :
  conforms STOCK_ITEM_SCHEMA stock = true ->
  conforms STOCK_ITEM_SCHEMA (with_sources srcs stock) = true.
Proof.
  intros Hc. destruct stock as [| | | | |props]; try discriminate Hc.
  unfold with_sources. cbn [spread]. unfold STOCK_ITEM_SCHEMA in *.
  rewrite conforms_set_prop_fresh; [exact Hc|reflexivity|reflexivity].
Qed.

Lemma stocks_map_ok (stocks : option JValue) (f : JValue -> JValue)
      (results : list JValue) :
  stocks_map stocks f = Ok results ->
  exists items, stocks = Some (JArr items) /\ results = map f items.
Proof.
  destruct stocks as [[| | | |items|]|]; simpl; try discriminate.
  intros E; inversion E; subst. exists items. auto.
Qed.

Lemma stocks_map_throw (stocks : option JValue) (f : JValue -> JValue) (e : JsError) :
  stocks_map stocks f = Throw e ->
  (forall items, stocks <> Some (JArr items)) /\ exists k, e = TypeError k.
Proof.
  destruct stocks as [[| | | |items|]|]; simpl; try discriminate;
    intros E; inversion E; subst; (split; [intros items; congruence|eexists; reflexivity]).
Qed.

Lemma read_results_ok (parsed : JValue) (stocks : option JValue) (items : list JValue) :
  read_results parsed = Ok stocks ->
  (stocks = Some (JArr items) <-> Spec.results_array parsed = Some items).
Proof.
  destruct parsed as [| | | | |props]; simpl; try discriminate;
    intros E; inversion E; subst; try (split; discriminate).
  destruct (get_prop (js "results") props) as [[| | | |xs|]|]; split; congruence.
Qed.

(** What a returning call returns. *)
Lemma analyzeStocks_ok (tickers : list jsstring) (r : GenerateContentResponse)
      (results : list JValue) :
  analyzeStocks tickers (Fulfilled r) = Ok results ->
  exists items, results = map (with_sources (firstn 5 (globalSources r))) items.
Proof.
  unfold analyzeStocks. cbn [bind].
  destruct (text r) as [t|]; [|discriminate].
  destruct (nonempty t); [|discriminate]. cbn [bind].
  destruct (JSON_parse t) as [parsed|e]; [|discriminate]. cbn [bind].
  destruct (read_results parsed) as [stocks|e]; [|discriminate]. cbn [bind].
  intros Em. destruct (stocks_map_ok _ _ Em) as (items & _ & E). exists items. exact E.
Qed.

(** C1, with what the function returns.  A call of [analyzeStocks] that completes without an error
    had a fulfilled remote call whose non-empty text parsed to an object
    with a [results] array, and returns the elements of that array, in
    order, each with the shared sources attached: the list is empty exactly
    when the array is, and its records conform to the item schema whenever
    the elements of the array do; the function itself checks neither.
    Every other outcome is a thrown error: the rejection of the remote call,
    [Error("Empty response from AI")], the parser's error, or a
    [TypeError] for a missing [results] array.  The empty list is turned
    into an error by the caller: what passes the check of [handleSearch] is
    non-empty. *)
Theorem analyzeStocks_outcome (tickers : list jsstring) (net : Settled) :
  (forall results, App.check_results (analyzeStocks tickers net) = Ok results ->
     analyzeStocks tickers net = Ok results /\ results <> [])
  /\
  match analyzeStocks tickers net with
  | Ok results =>
      exists r t parsed items,
        net = Fulfilled r /\ text r = Some t /\ nonempty t = true
        /\ JSON_parse t = Ok parsed /\ Spec.results_array parsed = Some items
        /\ results = map (with_sources (firstn 5 (globalSources r))) items
        /\ (results = [] <-> items = [])
        /\ (Forall (fun x => conforms STOCK_ITEM_SCHEMA x = true) items ->
            Forall (fun x => conforms STOCK_ITEM_SCHEMA x = true) results)
  | Throw e =>
      net = Rejected e
      \/ (exists r, net = Fulfilled r /\ Spec.EmptyResponse r
                    /\ e = Error "Empty response from AI")
      \/ (exists r t, net = Fulfilled r /\ text r = Some t /\ nonempty t = true
                      /\ JSON_parse t = Throw e)
      \/ (exists r t parsed k, net = Fulfilled r /\ text r = Some t /\ nonempty t = true
                      /\ JSON_parse t = Ok parsed /\ Spec.results_array parsed = None
                      /\ e = TypeError k)
  end.
Proof.
  split; [intros results; apply check_results_ok|].
  unfold analyzeStocks. destruct net as [e|r]; cbn [bind]; [left; reflexivity|].
  destruct (text r) as [t|] eqn:Et;
    [|right; left; exists r; unfold Spec.EmptyResponse; auto].
  destruct (nonempty t) eqn:Hne; cbn [bind].
  2:{ right; left; exists r. destruct t; [|discriminate].
      unfold Spec.EmptyResponse; auto. }
  destruct (JSON_parse t) as [parsed|e] eqn:Ep; cbn [bind].
  2:{ right; right; left. exists r, t. auto. }
  destruct (read_results parsed) as [stocks|e] eqn:Er; cbn [bind].
  2:{ right; right; right. exists r, t, parsed.
      destruct parsed; simpl in Er; try discriminate. inversion Er; subst.
      eexists. repeat split; auto. }
  destruct (stocks_map stocks _) as [results|e] eqn:Em.
  - destruct (stocks_map_ok _ _ Em) as (items & Es & Eres).
    exists r, t, parsed, items. repeat split; auto.
    + apply (read_results_ok parsed items Er), Es.
    + subst results. intros E. destruct items; [reflexivity|discriminate].
    + intros ->. subst results. reflexivity.
    + intros Hall. subst results. apply Forall_map.
      eapply Forall_impl; [|exact Hall]. intros x. apply with_sources_conforms.
  - destruct (stocks_map_throw _ _ Em) as (Hno & k & ->).
    right; right; right. exists r, t, parsed, k. repeat split; auto.
    destruct (Spec.results_array parsed) as [items|] eqn:Ea; [|reflexivity].
    exfalso. apply (Hno items). apply (read_results_ok parsed items Er), Ea.
Qed.

End Contract.

(** C1 as the specification words it fails: [{"results":[]}] comes back as
    the empty list, and
    [{"results":[{}]}] as a record that lacks every required field; neither
    raises an error. *)
Lemma analyze_guarantee_fails :
  ~ Spec.analyze_guarantee [js "AAPL"]
      (GeminiService.Fulfilled (Demo.response Demo.empty_results_text 0))
  /\ ~ Spec.analyze_guarantee [js "AAPL"]
        (GeminiService.Fulfilled (Demo.response Demo.one_blank_result_text 0)).
Proof.
  split; intros G.
  - destruct (G [] eq_refl) as [Hne _]. apply Hne. reflexivity.
  - destruct (G _ eq_refl) as [_ Hall].
    inversion Hall as [|x l Hx _]. vm_compute in Hx. discriminate Hx.
Qed.

(** The payload [{"results":[{}]}] with two grounding chunks. *)
Lemma analyzeStocks_outcome_witness :
  let net := GeminiService.Fulfilled (Demo.response Demo.one_blank_result_text 2) in
  let record :=
    JObj [ (js "sources",
            JArr [ JObj [ (js "title", JStr (js "Market Source")); (js "uri", JStr (js "u0")) ];
                   JObj [ (js "title", JStr (js "Market Source")); (js "uri", JStr (js "u1")) ] ]) ] in
  GeminiService.analyzeStocks [js "AAPL"] net = Ok [record] /\ [record] <> [].
Proof.
  cbv zeta.
  apply (proj1 (@analyzeStocks_outcome Demo.host [js "AAPL"]
                  (GeminiService.Fulfilled (Demo.response Demo.one_blank_result_text 2)))).
  reflexivity.
Defined.

(** ** Citations *)

Section Citations.
Import GeminiService.
Context `{Host}.



Lemma str_or_nonempty (a : option jsstring) (d : jsstring) :
  nonempty d = true -> nonempty (str_or a d) = true.
Proof.
  intros Hd. unfold str_or. destruct a as [s|]; [|exact Hd].
  destruct (nonempty s) eqn:E; [exact E|exact Hd].
Qed.

Lemma globalSources_filter (r : GenerateContentResponse) :
  globalSources r
  = filter (fun s => negb (str_eqb (source_uri s) (js "#"))) (map chunk_source (chunks_of r)).
Proof.
  unfold globalSources, chunks_of. destruct (groundingChunks_of r); reflexivity.
Qed.


End Citations.


(** ** The dashboard *)

Section Dashboard.
Import AnalysisDashboard.
Context `{Host}.

Lemma positive_is_truthy (v : number) : num_gt v (of_Z 0) = true -> num_truthy v = true.
Proof. destruct v as [s|s| |s m e]; simpl; try discriminate; reflexivity. Qed.

Lemma zero_not_positive (v : number) : SFeqb v (of_Z 0) = true -> num_gt v (of_Z 0) = false.
Proof.
  destruct v as [s|s| |s m e]; simpl; try discriminate; try reflexivity;
    destruct s; discriminate.
Qed.

Lemma dcf_valid_iff (data : StockAnalysisData) :
  dcf_valid data = num_gt (dcfIntrinsicValue (quality data)) (of_Z 0).
Proof.
  unfold dcf_valid. destruct (num_gt _ _) eqn:E.
  - rewrite (positive_is_truthy _ E). reflexivity.
  - apply andb_false_r.
Qed.

(** C8.  For the selected result, the DCF fields are rendered from
    [dcfIntrinsicValue] alone: when it is 0 -- and whenever it is not
    strictly greater than 0 -- the matrix row shows the note "DCF N/A
    (Negative/Unpredictable FCF)" and the card shows "N/A"; the dollar value
    and the margin percentage are shown exactly when it is strictly greater
    than 0. *)
Theorem dcf_sentinel_shows_NA (stocks : list StockAnalysisData) (activeIndex : nat)
        (data : StockAnalysisData) :
  nth_error stocks activeIndex = Some data ->
  let v := dcfIntrinsicValue (quality data) in
  let margin := num_mul (dcfMarginOfSafety (quality data)) (of_Z 100) in
  exists view, render stocks activeIndex = Some view
  /\ (SFeqb v (of_Z 0) = true ->
        matrix_dcf view = DCFNote (js "DCF N/A (Negative/Unpredictable FCF)")
        /\ card_dcf view = js "N/A")
  /\ (num_gt v (of_Z 0) = false ->
        matrix_dcf view = DCFNote (js "DCF N/A (Negative/Unpredictable FCF)")
        /\ card_dcf view = js "N/A")
  /\ (num_gt v (of_Z 0) = true ->
        matrix_dcf view
        = DCFLine (js "$" ++ toFixed v 2) (toFixed margin 1 ++ js "%")
                  (if num_gt margin (of_Z 0) then js "text-emerald-400"
                   else js "text-rose-400")
        /\ card_dcf view = js "$" ++ toFixed v 2).
Proof.
  intros Hnth. cbv zeta. unfold render. rewrite Hnth. eexists. split; [reflexivity|].
  cbn [matrix_dcf card_dcf]. unfold renderDCFInfo, dcfIntrinsicCard.
  rewrite (dcf_valid_iff data).
  split; [intros Hz; rewrite (zero_not_positive _ Hz); split; reflexivity|].
  split; intros ->; split; reflexivity.
Qed.

End Dashboard.

(** Two results: one with the sentinel 0 in both DCF fields, one valued at
    187.5 with a margin of safety of 0.25. *)
Lemma dcf_sentinel_shows_NA_witness :
  let stocks := [ Demo.stock (of_Z 0) (of_Z 0);
                  Demo.stock Demo.n187_5 (num_div (of_Z 1) (of_Z 4)) ] in
  (exists view, AnalysisDashboard.render stocks 0 = Some view
     /\ AnalysisDashboard.matrix_dcf view
        = AnalysisDashboard.DCFNote (js "DCF N/A (Negative/Unpredictable FCF)")
     /\ AnalysisDashboard.card_dcf view = js "N/A")
  /\ (exists view, AnalysisDashboard.render stocks 1 = Some view
     /\ AnalysisDashboard.matrix_dcf view
        = AnalysisDashboard.DCFLine (js "$187.50") (js "25.0%") (js "text-emerald-400")
     /\ AnalysisDashboard.card_dcf view = js "$187.50").
Proof.
  cbv zeta. split.
  - destruct (@dcf_sentinel_shows_NA Demo.host
                [ Demo.stock (of_Z 0) (of_Z 0);
                  Demo.stock Demo.n187_5 (num_div (of_Z 1) (of_Z 4)) ] 0
                (Demo.stock (of_Z 0) (of_Z 0)) eq_refl)
      as (view & Hv & Hz & _).
    exists view. split; [exact Hv|]. apply Hz. reflexivity.
  - destruct (@dcf_sentinel_shows_NA Demo.host
                [ Demo.stock (of_Z 0) (of_Z 0);
                  Demo.stock Demo.n187_5 (num_div (of_Z 1) (of_Z 4)) ] 1
                (Demo.stock Demo.n187_5 (num_div (of_Z 1) (of_Z 4))) eq_refl)
      as (view & Hv & _ & _ & Hp).
    exists view. split; [exact Hv|].
    destruct (Hp eq_refl) as [Hm Hc]. rewrite Hm, Hc. split; reflexivity.
Defined.

(* ================================================================== *)
(** * Part III: further properties of the code                         *)
(* ================================================================== *)

(** ** The order of binary64 numbers *)

Section OrderFacts.

Lemma SFcompare_eq_finite (a b : number) :
  SFcompare a b = Some Eq -> finite a = true ->
  match a with S754_zero _ => True | _ => a = b end.
Proof.
  destruct a as [s|s| |s m e], b as [s'|s'| |s' m' e']; simpl; try discriminate; auto;
    try (destruct s; discriminate); try (destruct s'; discriminate).
  intros E _. destruct s, s'; try discriminate;
    destruct (Z.compare_spec e e'); try discriminate; subst;
    change (PosDef.Pos.compare_cont Eq m m') with (Pos.compare m m') in E;
    destruct (Pos.compare_spec m m'); try discriminate; subst; reflexivity.
Qed.

Lemma SFcompare_trans (a b c : number) (x : comparison) :
  SFcompare a b = Some x -> SFcompare b c = Some x -> SFcompare a c = Some x.
Proof.
  destruct a as [sa|sa| |sa ma ea], b as [sb|sb| |sb mb eb], c as [sc|sc| |sc mc ec];
    simpl; try discriminate; try (intros; assumption);
    try (destruct sa, sb, sc; simpl; congruence).
  all: change (PosDef.Pos.compare_cont Eq) with Pos.compare.
  all: destruct sa, sb, sc; simpl; try congruence; intros H1 H2;
    destruct (Z.compare_spec ea eb), (Z.compare_spec eb ec), (Z.compare_spec ea ec);
    try lia; subst; try congruence;
    destruct (Pos.compare_spec ma mb), (Pos.compare_spec mb mc), (Pos.compare_spec ma mc);
    simpl in *; try lia; subst; try congruence.
Qed.

Lemma SFcompare_eq_l (a b c : number) :
  SFcompare a b = Some Eq -> SFcompare a c = SFcompare b c.
Proof.
  intros E.
  destruct a as [sa|sa| |sa ma ea], b as [sb|sb| |sb mb eb]; simpl in E; try discriminate;
    try (destruct sa; discriminate); try (destruct sb; discriminate).
  - destruct c; reflexivity.
  - destruct sa, sb; try discriminate; reflexivity.
  - assert (X : S754_finite sa ma ea = S754_finite sb mb eb).
    { apply (SFcompare_eq_finite (S754_finite sa ma ea) (S754_finite sb mb eb)); [|reflexivity].
      simpl. exact E. }
    rewrite X. reflexivity.
Qed.

Lemma SFcompare_eq_r (a b c : number) :
  SFcompare b c = Some Eq -> SFcompare a b = SFcompare a c.
Proof.
  intros E. rewrite (SFcompare_antisym b a), (SFcompare_antisym c a).
  f_equal. exact (SFcompare_eq_l b c a E).
Qed.

Lemma num_le_trans (a b c : number) :
  num_le a b = true -> num_le b c = true -> num_le a c = true.
Proof.
  unfold num_le, SFleb. intros H1 H2.
  destruct (SFcompare a b) as [[]|] eqn:E1; try discriminate;
    destruct (SFcompare b c) as [[]|] eqn:E2; try discriminate.
  - rewrite (SFcompare_eq_l a b c E1), E2. reflexivity.
  - rewrite (SFcompare_eq_l a b c E1), E2. reflexivity.
  - rewrite <- (SFcompare_eq_r a b c E2), E1. reflexivity.
  - rewrite (SFcompare_trans a b c E1 E2). reflexivity.
Qed.

(** [a < b] and [b <= c] give [a < c]. *)
Lemma num_lt_le_trans (a b c : number) :
  num_gt b a = true -> num_le b c = true -> num_gt c a = true.
Proof.
  unfold num_gt, num_le, SFltb, SFleb. intros H1 H2.
  destruct (SFcompare a b) as [[]|] eqn:E1; try discriminate;
    destruct (SFcompare b c) as [[]|] eqn:E2; try discriminate.
  - rewrite <- (SFcompare_eq_r a b c E2), E1. reflexivity.
  - rewrite (SFcompare_trans a b c E1 E2). reflexivity.
Qed.

Lemma num_le_not_nan (a b : number) :
  num_le a b = true -> is_nan a = false /\ is_nan b = false.
Proof. destruct a, b; simpl; try discriminate; auto. Qed.

End OrderFacts.

(** ** The phases of the page *)

Section Page.
Import App GeminiService.
Context `{Host}.

Lemma submit_from_rest (w : World) (now : number) :
  at_rest w -> finite now = true -> at_rest (react w (Submit now)) \/ in_flight (react w (Submit now)).
Proof.
  intros R Hn. destruct (starts_request w (Submit now)) eqn:Hs.
  - right. destruct R as (Ha & Ht & Hi & _).
    pose proof (handleSearch_started w now Hs) as St.
    simpl in Hs. apply andb_true_iff in Hs. destruct Hs as [Hb Htk].
    assert (E : react w (Submit now) =
              set_awaiting
                (send (startProgressSimulation now
                         (setState w {| loading := true; progress := of_Z 0; error := None;
                                        data := None; step := processing |}))
                      (request (tickers_of (input w))))
                (awaiting w ++ [tickers_of (input w)])).
    { simpl. unfold handleSearch. rewrite Hb. simpl.
      destruct (Nat.eqb (List.length (tickers_of (input w))) 0); [discriminate|reflexivity]. }
    unfold in_flight. rewrite St. rewrite E. cbn [awaiting timeouts progressInterval
      set_awaiting send startProgressSimulation set_interval setState].
    rewrite Ha, Ht. cbn [loading error data progress].
    repeat split; try reflexivity.
    + exists (tickers_of (input w)). reflexivity.
    + exists now. auto.
  - left. rewrite (handleSearch_ignored w now Hs). exact R.
Qed.

Lemma tick_in_flight (w : World) (now : number) :
  in_flight w -> finite now = true -> in_flight (react w (Tick now)).
Proof.
  intros (Ha & Ht & (st & Hi & Hst) & Hl & He & Hd & Hn & H5 & H95) Hnow.
  rewrite (react_Tick w now Hi).
  destruct (tick_spec st now (state w) Hst Hnow Hn H95) as (Hn' & Hle & H95').
  destruct (tick_frame st now (state w)) as (Fl & _ & Fe & Fd).
  unfold in_flight. cbn [awaiting timeouts progressInterval setState state].
  rewrite Fl, Fe, Fd.
  repeat split; auto.
  - exists st. auto.
  - exact (num_le_trans _ _ _ H5 Hle).
Qed.

Lemma settle_in_flight (w : World) (net : Settled) :
  in_flight w -> at_rest (react w (Settle net)) \/ completing (react w (Settle net)).
Proof.
  intros ((tickers & Ha) & Ht & _ & Hl & He & Hd & _).
  rewrite (react_Settle w net Ha).
  destruct (check_results (analyzeStocks tickers net)) as [results|err] eqn:E.
  - right. rewrite (resume_ok _ _ E). unfold completing.
    cbn [awaiting timeouts progressInterval state set_timeouts finishProgress setState
         set_interval set_awaiting].
    rewrite Ht. cbn [loading error data progress set_progress]. rewrite Hl, He, Hd.
    repeat split; try reflexivity. exists results. reflexivity.
  - left. rewrite (resume_throw _ _ E). unfold at_rest.
    cbn [awaiting timeouts progressInterval state finishProgress setState
         set_interval set_awaiting].
    rewrite Ht. repeat split; try reflexivity. left. split; reflexivity.
Qed.

Lemma timeout_completing (w : World) : completing w -> at_rest (react w Timeout).
Proof.
  intros (Ha & (results & Ht) & Hi & _).
  simpl. rewrite Ht. unfold at_rest, publish.
  cbn [awaiting timeouts progressInterval state setState set_timeouts].
  rewrite Ha, Hi. repeat split; try reflexivity.
  right. repeat split; try reflexivity. exists results. reflexivity.
Qed.

(** Every world of the page is in one of the three phases. *)
Lemma page_phases (w : World) : on_page w -> at_rest w \/ in_flight w \/ completing w.
Proof.
  induction 1 as [|w e _ IH Hp].
  - left. unfold at_rest. simpl. repeat split; try reflexivity. left. split; reflexivity.
  - destruct e as [text|now|now|net| |]; simpl in Hp.
    + destruct IH as [R|[F|C]].
      * left. exact R.
      * destruct F as (_ & _ & _ & Hl & _). unfold input_disabled in Hp.
        rewrite Hl in Hp. discriminate.
      * destruct C as (_ & _ & _ & Hl & _). unfold input_disabled in Hp.
        rewrite Hl in Hp. discriminate.
    + apply andb_true_iff in Hp. destruct Hp as [Hp Hn]. unfold input_disabled in Hp.
      destruct IH as [R|[F|C]].
      * destruct (submit_from_rest now R Hn); auto.
      * destruct F as (_ & _ & _ & Hl & _). rewrite Hl in Hp. discriminate.
      * destruct C as (_ & _ & _ & Hl & _). rewrite Hl in Hp. discriminate.
    + destruct IH as [R|[F|C]].
      * destruct R as (_ & _ & Hi & _). rewrite Hi in Hp. discriminate.
      * right; left. apply tick_in_flight; [exact F|].
        destruct (progressInterval w); [exact Hp|discriminate].
      * destruct C as (_ & _ & Hi & _). rewrite Hi in Hp. discriminate.
    + destruct IH as [R|[F|C]].
      * destruct R as (Ha & _). rewrite Ha in Hp. discriminate.
      * destruct (settle_in_flight net F); auto.
      * destruct C as (Ha & _). rewrite Ha in Hp. discriminate.
    + destruct IH as [R|[F|C]].
      * destruct R as (_ & Ht & _). rewrite Ht in Hp. discriminate.
      * destruct F as (_ & Ht & _). rewrite Ht in Hp. discriminate.
      * left. apply timeout_completing, C.
    + unfold shows_error_panel, has_error in Hp. destruct IH as [R|[F|C]].
      * left. destruct R as (Ha & Ht & Hi & Hl & [[Hp0 Hd]|(_ & He & _)]).
        -- unfold at_rest. simpl. repeat split; auto.
        -- rewrite He in Hp. discriminate.
      * destruct F as (_ & _ & _ & _ & He & _). rewrite He in Hp. discriminate.
      * destruct C as (_ & _ & _ & _ & He & _). rewrite He in Hp. discriminate.
Qed.

End Page.

(** ** What the phases give *)

Section PageProperties.
Import App GeminiService.
Context `{Host}.

(** X1.  On the page at most one thing is outstanding -- a call of
    [analyzeStocks] or the publication of its results -- and exactly then
    the state is loading; while it is, the field and the button are
    disabled and no submission can happen: a second request is never
    started beside a running one. *)
Theorem one_request_at_a_time (w : World) :
  on_page w ->
  (List.length (awaiting w) + List.length (timeouts w) <= 1)%nat
  /\ (loading (state w) = true <-> awaiting w <> [] \/ timeouts w <> [])
  /\ (awaiting w <> [] \/ timeouts w <> [] ->
      input_disabled w = true /\ button_disabled w = true
      /\ forall now, possible w (Submit now) = false).
Proof.
  intros Hp.
  assert (L : loading (state w) = true <-> awaiting w <> [] \/ timeouts w <> []).
  { destruct (page_phases Hp) as [R|[F|C]].
    - destruct R as (Ha & Ht & _ & Hl & _). rewrite Ha, Ht, Hl.
      split; [discriminate|intros [X|X]; congruence].
    - destruct F as ((t & Ha) & _ & _ & Hl & _). rewrite Ha, Hl.
      split; [left; discriminate|reflexivity].
    - destruct C as (_ & (r & Ht) & _ & Hl & _). rewrite Ht, Hl.
      split; [right; discriminate|reflexivity]. }
  split; [|split; [exact L|]].
  - destruct (page_phases Hp) as [R|[F|C]].
    + destruct R as (Ha & Ht & _). rewrite Ha, Ht. simpl. lia.
    + destruct F as ((t & Ha) & Ht & _). rewrite Ha, Ht. simpl. lia.
    + destruct C as (Ha & (r & Ht) & _). rewrite Ha, Ht. simpl. lia.
  - intros Ho. apply L in Ho. unfold button_disabled, input_disabled.
    rewrite Ho. repeat split; try reflexivity.
    intros now. simpl. unfold input_disabled. rewrite Ho. reflexivity.
Qed.

(** X2.  On the page the estimator's interval is live exactly while a call
    is outstanding: it is cleared as soon as the outcome is known, and a
    tick can change the state in no other phase. *)
Theorem estimator_lives_with_call (w : World) :
  on_page w ->
  (progressInterval w = None <-> awaiting w = [])
  /\ (awaiting w = [] -> forall now, react w (Tick now) = w).
Proof.
  intros Hp.
  assert (L : progressInterval w = None <-> awaiting w = []).
  { destruct (page_phases Hp) as [R|[F|C]].
    - destruct R as (Ha & _ & Hi & _). rewrite Ha, Hi. tauto.
    - destruct F as ((t & Ha) & _ & (st & Hi & _) & _). rewrite Ha, Hi.
      split; discriminate.
    - destruct C as (Ha & _ & Hi & _). rewrite Ha, Hi. tauto. }
  split; [exact L|]. intros Ha now. apply L in Ha. simpl. rewrite Ha. reflexivity.
Qed.

Lemma five_le_truthy (p : number) : num_le (of_Z 5) p = true -> num_truthy p = true.
Proof. destruct p as [s|s| |s m e]; simpl; try discriminate; reflexivity. Qed.

(** X3.  On the page the progress is always a number between 0 and 100:
    between 5 and 95 while a call is outstanding, and, when not loading,
    exactly 100 if results are shown and exactly 0 otherwise. *)
Theorem progress_in_range (w : World) :
  on_page w ->
  let p := progress (state w) in
  is_nan p = false
  /\ num_le (of_Z 0) p = true /\ num_le p (of_Z 100) = true
  /\ (awaiting w <> [] -> num_le (of_Z 5) p = true /\ num_le p (of_Z 95) = true)
  /\ (loading (state w) = false ->
      (data (state w) <> None /\ p = of_Z 100) \/ (data (state w) = None /\ p = of_Z 0)).
Proof.
  intros Hp. cbv zeta. destruct (page_phases Hp) as [R|[F|C]].
  - destruct R as (Ha & _ & _ & Hl & [(P & D)|(P & _ & results & D)]); rewrite P, Ha.
    + repeat split; try reflexivity; try congruence. intros _. right. auto.
    + repeat split; try reflexivity; try congruence. intros _. left.
      split; [congruence|reflexivity].
  - destruct F as (_ & _ & _ & Hl & _ & _ & Hn & H5 & H95).
    repeat split; auto.
    + exact (num_le_trans (of_Z 0) (of_Z 5) _ eq_refl H5).
    + exact (num_le_trans _ (of_Z 95) (of_Z 100) H95 eq_refl).
    + rewrite Hl. discriminate.
  - destruct C as (Ha & _ & _ & Hl & _ & _ & P). rewrite P, Ha, Hl.
    repeat split; try reflexivity; try congruence; discriminate.
Qed.

(** X4.  In no world the page rests in between two events is the block
    under [state.loading && !state.progress], the large spinner, shown:
    whenever the state is loading the progress is a number other than 0. *)
Theorem spinner_never_shown (w : World) :
  on_page w ->
  shows_spinner w = false
  /\ (loading (state w) = true -> num_truthy (progress (state w)) = true).
Proof.
  intros Hp.
  assert (T : loading (state w) = true -> num_truthy (progress (state w)) = true).
  { destruct (page_phases Hp) as [R|[F|C]].
    - destruct R as (_ & _ & _ & Hl & _). rewrite Hl. discriminate.
    - destruct F as (_ & _ & _ & _ & _ & _ & _ & H5 & _). intros _.
      exact (five_le_truthy _ H5).
    - destruct C as (_ & _ & _ & _ & _ & _ & P). rewrite P. reflexivity. }
  split; [|exact T]. unfold shows_spinner.
  destruct (loading (state w)); [rewrite (T eq_refl)|]; reflexivity.
Qed.

End PageProperties.

(** The search for AAPL of the examples, a call outstanding. *)
Lemma searching_on_page : App.on_page Demo.searching.
Proof.
  unfold Demo.searching.
  apply App.on_page_react; [apply App.on_page_react; [apply App.on_page_initial|]|];
    reflexivity.
Qed.

Lemma one_request_at_a_time_witness :
  App.awaiting Demo.searching = [[js "AAPL"]]
  /\ App.loading (App.state Demo.searching) = true
  /\ App.possible Demo.searching (App.Submit (of_Z 2000)) = false.
Proof.
  destruct (@one_request_at_a_time Demo.host Demo.searching searching_on_page)
    as (_ & L & Hd).
  split; [reflexivity|]. split; [apply L; left; discriminate|].
  apply Hd. left. discriminate.
Defined.

Lemma estimator_lives_with_call_witness :
  let settled := App.react Demo.searching
                   (App.Settle (GeminiService.Rejected (Error "Failed to fetch"))) in
  App.progressInterval Demo.searching <> None
  /\ App.progressInterval settled = None
  /\ App.react settled (App.Tick (of_Z 5000)) = settled.
Proof.
  cbv zeta.
  destruct (@estimator_lives_with_call Demo.host
              (App.react Demo.searching
                 (App.Settle (GeminiService.Rejected (Error "Failed to fetch")))))
    as (L & T).
  - apply App.on_page_react; [exact searching_on_page|reflexivity].
  - split; [discriminate|]. split; [apply L; reflexivity|apply T; reflexivity].
Defined.

Lemma progress_in_range_witness :
  let w := App.react Demo.searching (App.Tick (of_Z 6000)) in
  App.progress (App.state w) = of_Z 45
  /\ num_le (of_Z 5) (App.progress (App.state w)) = true
  /\ num_le (App.progress (App.state w)) (of_Z 95) = true.
Proof.
  cbv zeta.
  destruct (@progress_in_range Demo.host (App.react Demo.searching (App.Tick (of_Z 6000))))
    as (_ & _ & _ & B & _).
  - apply App.on_page_react; [exact searching_on_page|reflexivity].
  - split; [reflexivity|]. apply B. discriminate.
Defined.

Lemma spinner_never_shown_witness :
  App.loading (App.state Demo.searching) = true
  /\ App.shows_spinner Demo.searching = false.
Proof.
  split; [reflexivity|].
  apply (@spinner_never_shown Demo.host Demo.searching searching_on_page).
Defined.

(** ** Invariants of every reachable world *)

Section Reachable.
Import App GeminiService.
Context `{Host}.

Lemma react_exclusive (w : World) (e : Event) :
  exclusive (state w) -> exclusive (state (react w e)).
Proof.
  intros Hx. destruct e as [text|now|now|net| |].
  - exact Hx.
  - destruct (starts_request w (Submit now)) eqn:E.
    + rewrite (handleSearch_started w now E). split; simpl; congruence.
    + rewrite (handleSearch_ignored w now E). exact Hx.
  - simpl. destruct (progressInterval w) as [startTime|]; [|exact Hx].
    destruct (tick_frame startTime now (state w)) as (Hl & _ & He & Hd).
    unfold exclusive in *. cbn [state setState]. rewrite Hl, He, Hd. exact Hx.
  - simpl. destruct (awaiting w) as [|tickers rest]; [exact Hx|].
    destruct (check_results (analyzeStocks tickers net)) as [results|err] eqn:E.
    + rewrite (resume_ok _ _ E). exact Hx.
    + rewrite (resume_throw _ _ E). split; simpl; [auto|congruence].
  - simpl. destruct (timeouts w) as [|results rest]; [exact Hx|].
    split; simpl; [congruence|auto].
  - destruct Hx as [_ Hd]. split; simpl; [congruence|exact Hd].
Qed.

(** X5.  In every reachable world [error] and [data] are never both
    non-null, and neither is non-null while loading: of the progress bar,
    the error panel and the dashboard at most one is rendered. *)
Theorem panels_exclude_each_other (w : World) :
  reachable w ->
  (error (state w) <> None -> data (state w) = None /\ loading (state w) = false)
  /\ (data (state w) <> None -> error (state w) = None /\ loading (state w) = false)
  /\ (shows_error_panel w = true -> shows_dashboard w = false /\ shows_progress_bar w = false)
  /\ (shows_dashboard w = true -> shows_error_panel w = false /\ shows_progress_bar w = false)
  /\ (shows_progress_bar w = true -> shows_error_panel w = false /\ shows_dashboard w = false).
Proof.
  intros Hr.
  assert (Hx : exclusive (state w)).
  { induction Hr as [|w e _ IH]; [split; simpl; congruence|exact (react_exclusive w e IH)]. }
  destruct Hx as [He Hd].
  unfold shows_error_panel, shows_dashboard, shows_progress_bar, has_error, has_data.
  destruct (error (state w)) as [m|] eqn:Ee, (data (state w)) as [r|] eqn:Ed,
           (loading (state w)) eqn:El;
    try (destruct He as [? ?]; [discriminate|discriminate]);
    try (specialize (Hd ltac:(discriminate)); discriminate);
    repeat split; intros; try congruence; try discriminate; simpl in *;
    try (destruct (nonempty m); reflexivity).
Qed.

Lemma error_text_not_empty (err : JsError) : error_text err <> [].
Proof.
  unfold error_text.
  pose proof (str_or_nonempty (Some (err_message err)) generic_message eq_refl) as N.
  intros E. rewrite E in N. discriminate.
Qed.

Lemma react_nothing_empty (w : World) (e : Event) :
  nothing_empty w -> nothing_empty (react w e).
Proof.
  intros (Ht & Hd & He). destruct e as [text|now|now|net| |].
  - split; [exact Ht|split; [exact Hd|exact He]].
  - destruct (starts_request w (Submit now)) eqn:E.
    + unfold nothing_empty. rewrite (handleSearch_started w now E).
      simpl in E. apply andb_true_iff in E. destruct E as [Hb Htk].
      simpl. unfold handleSearch. rewrite Hb. simpl.
      destruct (Nat.eqb (List.length (tickers_of (input w))) 0); [discriminate|].
      simpl. repeat split; [exact Ht|discriminate|discriminate].
    + rewrite (handleSearch_ignored w now E). split; [exact Ht|split; [exact Hd|exact He]].
  - simpl. destruct (progressInterval w) as [startTime|];
      [|split; [exact Ht|split; [exact Hd|exact He]]].
    destruct (tick_frame startTime now (state w)) as (_ & _ & Fe & Fd).
    unfold nothing_empty. cbn [state setState timeouts]. rewrite Fe, Fd. auto.
  - simpl. destruct (awaiting w) as [|tickers rest];
      [split; [exact Ht|split; [exact Hd|exact He]]|].
    destruct (check_results (analyzeStocks tickers net)) as [results|err] eqn:E.
    + rewrite (resume_ok _ _ E). destruct (check_results_ok _ E) as [_ Hne].
      unfold nothing_empty. simpl. repeat split; [|exact Hd|exact He].
      apply Forall_app. split; [exact Ht|constructor; [exact Hne|constructor]].
    + rewrite (resume_throw _ _ E). unfold nothing_empty. simpl.
      repeat split; [exact Ht|discriminate|].
      intros m Em. inversion Em; subst. apply error_text_not_empty.
  - simpl. destruct (timeouts w) as [|results rest] eqn:Et;
      [split; [rewrite Et; constructor|split; [exact Hd|exact He]]|].
    inversion Ht as [|? ? Hne Hrest]; subst.
    unfold nothing_empty. simpl. repeat split; [exact Hrest| |discriminate].
    intros r Er. inversion Er; subst. exact Hne.
  - unfold nothing_empty. simpl. repeat split; [exact Ht|exact Hd|discriminate].
Qed.

(** X6.  In every reachable world a published result list is non-empty
    and a published error text is non-empty, so the dashboard always has a
    stock to show and the error panel is rendered exactly when [error] is
    not null. *)
Theorem nothing_empty_is_published (w : World) :
  reachable w ->
  (forall results, data (state w) = Some results -> results <> [])
  /\ (forall m, error (state w) = Some m -> m <> [])
  /\ (shows_error_panel w = true <-> error (state w) <> None).
Proof.
  intros Hr.
  assert (Hn : nothing_empty w).
  { induction Hr as [|w e _ IH]; [|exact (react_nothing_empty e IH)].
    split; [constructor|split; simpl; discriminate]. }
  destruct Hn as (_ & Hd & He). split; [exact Hd|]. split; [exact He|].
  unfold shows_error_panel, has_error. destruct (error (state w)) as [m|].
  - specialize (He m eq_refl). destruct m; [congruence|]. simpl. split; congruence.
  - split; congruence.
Qed.

Lemma tickers_of_each_nonempty (text : jsstring) :
  Forall (fun t => t <> []) (tickers_of text).
Proof.
  apply Forall_forall. intros t Ht. unfold tickers_of in Ht.
  apply filter_In in Ht. destruct Ht as [_ Hne]. destruct t; [discriminate|discriminate].
Qed.

Lemma react_calls_proper (w : World) (e : Event) :
  calls_proper w -> calls_proper (react w e).
Proof.
  intros (Ha & Hs). destruct e as [text|now|now|net| |]; try (split; assumption).
  - destruct (starts_request w (Submit now)) eqn:E.
    + simpl in E. apply andb_true_iff in E. destruct E as [Hb Htk].
      simpl. unfold handleSearch. rewrite Hb. simpl.
      destruct (Nat.eqb (List.length (tickers_of (input w))) 0) eqn:El; [discriminate|].
      assert (P : proper_tickers (tickers_of (input w))).
      { split; [|apply tickers_of_each_nonempty].
        intros E0. rewrite E0 in El. discriminate. }
      split; simpl; apply Forall_app; (split; [assumption|]).
      * constructor; [exact P|constructor].
      * constructor; [|constructor]. eexists; split; [reflexivity|exact P].
    + rewrite (handleSearch_ignored w now E). split; assumption.
  - simpl. destruct (progressInterval w); split; assumption.
  - simpl. destruct (awaiting w) as [|tickers rest] eqn:Ea; [split; [rewrite Ea|]; assumption|].
    inversion Ha; subst.
    destruct (check_results (analyzeStocks tickers net)) as [results|err] eqn:E.
    + rewrite (resume_ok _ _ E). split; assumption.
    + rewrite (resume_throw _ _ E). split; assumption.
  - simpl. destruct (timeouts w); split; assumption.
Qed.

(** X7.  Every call of [analyzeStocks] the component makes, and every
    request it sends, is for a non-empty list of non-empty tickers. *)
Theorem calls_carry_tickers (w : World) :
  reachable w ->
  Forall proper_tickers (awaiting w)
  /\ Forall (fun r => exists tickers, r = request tickers /\ proper_tickers tickers) (sent w).
Proof.
  intros Hr. induction Hr as [|w e _ IH]; [|exact (react_calls_proper e IH)].
  split; constructor.
Qed.

Lemma submit_grows_sent (w : World) (now : number) :
  starts_request w (Submit now) = true ->
  sent (react w (Submit now)) = sent w ++ [request (tickers_of (input w))].
Proof.
  intros E. simpl in E. apply andb_true_iff in E. destruct E as [Hb Htk].
  simpl. unfold handleSearch. rewrite Hb. simpl.
  destruct (Nat.eqb (List.length (tickers_of (input w))) 0); [discriminate|reflexivity].
Qed.

(** X8.  Only a submission that passes both guards sends a request, and it
    sends exactly one, for the tickers of the field; no other event sends
    anything -- in particular a failed settlement is not retried. *)
Theorem one_request_per_search (w : World) (e : Event) :
  sent (react w e)
  = if starts_request w e then sent w ++ [request (tickers_of (input w))] else sent w.
Proof.
  destruct e as [text|now|now|net| |]; try reflexivity.
  - destruct (starts_request w (Submit now)) eqn:E.
    + exact (submit_grows_sent w now E).
    + rewrite (handleSearch_ignored w now E). reflexivity.
  - simpl. destruct (progressInterval w); reflexivity.
  - simpl. destruct (awaiting w) as [|tickers rest]; [reflexivity|].
    unfold handleSearch_resume.
    destruct (check_results (analyzeStocks tickers net)); reflexivity.
  - simpl. destruct (timeouts w); reflexivity.
Qed.

(** X9.  Dismissing the error clears the error field and nothing else, and
    doing it twice is doing it once; after a request that failed it leaves
    exactly the initial state. *)
Theorem dismissal_restores_initial_state (w : World) :
  (let w' := react w ClearFaults in
   error (state w') = None
   /\ loading (state w') = loading (state w) /\ progress (state w') = progress (state w)
   /\ data (state w') = data (state w) /\ step (state w') = step (state w)
   /\ input w' = input w /\ progressInterval w' = progressInterval w
   /\ awaiting w' = awaiting w /\ timeouts w' = timeouts w /\ sent w' = sent w
   /\ react w' ClearFaults = w')
  /\ (forall tickers rest net err,
        awaiting w = tickers :: rest ->
        check_results (analyzeStocks tickers net) = Throw err ->
        state (run w [Settle net; ClearFaults]) = initial_state).
Proof.
  split.
  - cbv zeta. simpl. repeat split; reflexivity.
  - intros tickers rest net err Ea E. cbn [run fold_left].
    rewrite (react_Settle w net Ea), (resume_throw _ _ E). reflexivity.
Qed.

End Reachable.

Lemma panels_exclude_each_other_witness :
  let w := App.react Demo.searching
             (App.Settle (GeminiService.Rejected (Error "Failed to fetch"))) in
  App.shows_error_panel w = true
  /\ App.shows_dashboard w = false /\ App.shows_progress_bar w = false.
Proof.
  cbv zeta.
  destruct (@panels_exclude_each_other Demo.host
              (App.react Demo.searching
                 (App.Settle (GeminiService.Rejected (Error "Failed to fetch")))))
    as (_ & _ & P & _).
  - repeat apply App.reachable_react. apply App.reachable_initial.
  - split; [reflexivity|]. apply P. reflexivity.
Defined.

Lemma nothing_empty_is_published_witness :
  let w := App.run Demo.searching
             [ App.Settle (GeminiService.Fulfilled (Demo.response Demo.one_blank_result_text 0));
               App.Timeout ] in
  exists results, App.data (App.state w) = Some results /\ results <> [].
Proof.
  cbv zeta.
  destruct (@nothing_empty_is_published Demo.host
              (App.run Demo.searching
                 [ App.Settle (GeminiService.Fulfilled
                                 (Demo.response Demo.one_blank_result_text 0));
                   App.Timeout ]))
    as (D & _).
  - repeat apply App.reachable_react. apply App.reachable_initial.
  - eexists. split; [reflexivity|]. apply D. reflexivity.
Defined.

Lemma calls_carry_tickers_witness :
  App.awaiting Demo.searching = [[js "AAPL"]]
  /\ Forall App.proper_tickers (App.awaiting Demo.searching).
Proof.
  split; [reflexivity|].
  apply (@calls_carry_tickers Demo.host Demo.searching).
  repeat apply App.reachable_react. apply App.reachable_initial.
Defined.

Lemma dismissal_restores_initial_state_witness :
  App.state (App.run Demo.searching
               [ App.Settle (GeminiService.Fulfilled Demo.silent_response);
                 App.ClearFaults ])
  = App.initial_state.
Proof.
  apply (proj2 (@dismissal_restores_initial_state Demo.host Demo.searching)
           [js "AAPL"] [] (GeminiService.Fulfilled Demo.silent_response)
           (Error "Empty response from AI")); reflexivity.
Defined.

(** ** Whole request cycles *)

Section Cycles.
Import App GeminiService.
Context `{Host}.

Lemma tick_changes_progress_only (startTime now : number) (prev : AnalysisState) :
  exists p, tick startTime now prev = set_progress prev p.
Proof.
  unfold tick. destruct (num_ge (progress prev) (of_Z 95)).
  - exists (progress prev). destruct prev; reflexivity.
  - eexists. reflexivity.
Qed.

(** A run of ticks changes the progress and nothing else in the world. *)
Lemma ticks_change_progress_only (nows : list number) :
  forall w, exists p, run w (map Tick nows) = setState w (set_progress (state w) p).
Proof.
  induction nows as [|now rest IH]; intros w.
  - exists (progress (state w)). destruct w as [i s pi a t se]. destruct s. reflexivity.
  - cbn [map run fold_left]. fold (run (react w (Tick now)) (map Tick rest)).
    destruct (IH (react w (Tick now))) as [p Ep]. rewrite Ep.
    simpl. destruct (progressInterval w) as [startTime|].
    + destruct (tick_changes_progress_only startTime now (state w)) as [p' ->].
      exists p. reflexivity.
    + exists p. reflexivity.
Qed.

(** X10.  A whole search from a world with nothing outstanding: the
    submission, any ticks at whatever clock readings, the settlement and the
    timer.  A non-empty result ends in the state that shows it, with
    progress 100; any failure ends in the Failed state with the error's
    text, and nothing is scheduled.  Either way one request was sent, the
    interval is cleared, and the ticks have no influence on where the cycle
    ends. *)
Theorem search_cycle (w : World) (t0 : number) (nows : list number) (net : Settled) :
  awaiting w = [] -> timeouts w = [] ->
  starts_request w (Submit t0) = true ->
  let tickers := tickers_of (input w) in
  let w1 := run w (Submit t0 :: map Tick nows ++ [Settle net]) in
  progressInterval w1 = None /\ awaiting w1 = []
  /\ sent w1 = sent w ++ [request tickers]
  /\ match check_results (analyzeStocks tickers net) with
     | Ok results =>
         state w1 = {| loading := true; progress := of_Z 100; error := None;
                       data := None; step := processing |}
         /\ timeouts w1 = [results]
         /\ state (react w1 Timeout)
            = {| loading := false; progress := of_Z 100; error := None;
                 data := Some results; step := idle |}
     | Throw err =>
         state w1 = failed (error_text err) /\ timeouts w1 = []
     end.
Proof.
  intros Ha Ht Hs. cbv zeta.
  assert (E : react w (Submit t0) =
              set_awaiting
                (send (startProgressSimulation t0
                         (setState w {| loading := true; progress := of_Z 0; error := None;
                                        data := None; step := processing |}))
                      (request (tickers_of (input w))))
                (awaiting w ++ [tickers_of (input w)])).
  { simpl in Hs. apply andb_true_iff in Hs. destruct Hs as [Hb Htk].
    simpl. unfold handleSearch. rewrite Hb. simpl.
    destruct (Nat.eqb (List.length (tickers_of (input w))) 0); [discriminate|reflexivity]. }
  assert (W : exists p, run w (Submit t0 :: map Tick nows ++ [Settle net])
                        = react (setState (react w (Submit t0))
                                   (set_progress (state (react w (Submit t0))) p))
                                (Settle net)).
  { destruct (ticks_change_progress_only nows (react w (Submit t0))) as [p Ep]. exists p.
    rewrite <- Ep. unfold run. cbn [fold_left]. rewrite fold_left_app. reflexivity. }
  destruct W as [p ->]. rewrite E, Ha.
  cbn [react awaiting setState set_awaiting app].
  unfold handleSearch_resume.
  destruct (check_results (analyzeStocks (tickers_of (input w)) net)) as [results|err];
    simpl; rewrite ?Ht; repeat split; reflexivity.
Qed.

Lemma Math_min_left (a x : number) :
  num_le a x = true -> (forall s, a <> S754_zero s) -> Math_min a x = a.
Proof.
  unfold num_le, SFleb, Math_min. intros Hle Hz.
  destruct (SFcompare a x) as [[]|]; try discriminate; [|reflexivity].
  destruct a as [[]| | |]; try reflexivity. exfalso. exact (Hz false eq_refl).
Qed.

Lemma Math_max_right (p b : number) :
  num_le p b = true -> num_ge p b = false -> Math_max p b = b.
Proof.
  unfold num_le, num_ge, SFleb, Math_max. rewrite (SFcompare_antisym p b).
  destruct (SFcompare p b) as [[]|]; simpl; try discriminate. reflexivity.
Qed.

Lemma num_le_antisym_95 (p : number) :
  num_le p (of_Z 95) = true -> num_ge p (of_Z 95) = true -> p = of_Z 95.
Proof.
  unfold num_le, num_ge, SFleb. rewrite (SFcompare_antisym (of_Z 95) p).
  intros H1 H2. destruct (SFcompare (of_Z 95) p) as [[]|] eqn:E; try discriminate.
  symmetry. exact (SFcompare_eq_finite (of_Z 95) p E eq_refl).
Qed.

(** X11.  The ceiling: when the ramp [(elapsed / duration) * 90] has
    reached 95, a tick leaves the progress at exactly 95, and from then on
    every tick, whatever the clock says, returns the state it was given. *)
Theorem progress_holds_at_ceiling (startTime now : number) (prev : AnalysisState)
        (later : list number) :
  num_le (progress prev) (of_Z 95) = true ->
  num_le (of_Z 95) (num_mul (num_div (num_sub now startTime) duration) (of_Z 90)) = true ->
  let s := tick startTime now prev in
  progress s = of_Z 95
  /\ fold_left (fun s' now' => tick startTime now' s') later s = s.
Proof.
  intros H95 Hx. cbv zeta.
  assert (G : progress (tick startTime now prev) = of_Z 95).
  { unfold tick. destruct (num_ge (progress prev) (of_Z 95)) eqn:Hg.
    - exact (num_le_antisym_95 _ H95 Hg).
    - cbv zeta. unfold set_progress; cbn [progress].
      rewrite Math_min_left; [|exact Hx|intros s; discriminate].
      rewrite Math_max_right; [|exact H95|exact Hg]. reflexivity. }
  split; [exact G|].
  induction later as [|n rest IH]; [reflexivity|].
  cbn [fold_left]. unfold tick at 2. rewrite G. exact IH.
Qed.

End Cycles.

Lemma search_cycle_witness :
  let net := GeminiService.Fulfilled (Demo.response Demo.one_blank_result_text 0) in
  let w := App.setInput App.initial_world (js "aapl") in
  let w1 := App.run w (App.Submit (of_Z 1000)
                       :: map App.Tick [of_Z 1100; of_Z 6000] ++ [App.Settle net]) in
  App.sent w1 = [GeminiService.request [js "AAPL"]]
  /\ App.progressInterval w1 = None
  /\ App.state (App.react w1 App.Timeout)
     = {| App.loading := false; App.progress := of_Z 100; App.error := None;
          App.data := Some [ JObj [ (js "sources", JArr []) ] ]; App.step := App.idle |}.
Proof.
  cbv zeta.
  destruct (@search_cycle Demo.host (App.setInput App.initial_world (js "aapl"))
              (of_Z 1000) [of_Z 1100; of_Z 6000]
              (GeminiService.Fulfilled (Demo.response Demo.one_blank_result_text 0))
              eq_refl eq_refl eq_refl)
    as (Hi & _ & Hs & Hm).
  split; [exact Hs|]. split; [exact Hi|].
  vm_compute in Hm. destruct Hm as (_ & _ & Hp). vm_compute. exact Hp.
Defined.

(** Started at 1000, the estimator ticks at 12000: the ramp is at 99. *)
Lemma progress_holds_at_ceiling_witness :
  let s := App.tick (of_Z 1000) (of_Z 12000) (App.state Demo.searching) in
  App.progress s = of_Z 95
  /\ fold_left (fun s' now' => App.tick (of_Z 1000) now' s') [of_Z 12100; of_Z 500] s = s.
Proof.
  cbv zeta.
  destruct (@progress_holds_at_ceiling (of_Z 1000) (of_Z 12000) (App.state Demo.searching)
              [of_Z 12100; of_Z 500] eq_refl eq_refl)
    as (_ & Hh).
  split; [reflexivity|exact Hh].
Defined.

(** ** More on ticker parsing *)

Section TickerFacts.
Import App GeminiService.
Context `{Host}.

Lemma whitespace_is_separator (c : N) : isSeparator c = false -> isWhiteSpace c = false.
Proof. unfold isSeparator. intros E. apply orb_false_iff in E. tauto. Qed.

Lemma separator_free_Forall (t : jsstring) :
  separator_free t = true <-> Forall (fun c => isSeparator c = false) t.
Proof.
  unfold separator_free. rewrite forallb_forall, Forall_forall.
  split; intros E c Hc; specialize (E c Hc);
    [apply negb_true_iff in E|apply negb_true_iff]; exact E.
Qed.

Lemma trimStart_id (t : jsstring) :
  Forall (fun c => isSeparator c = false) t -> trimStart t = t.
Proof.
  intros F. destruct t as [|c t]; [reflexivity|]. inversion F; subst.
  simpl. rewrite (whitespace_is_separator c); auto.
Qed.

Lemma trim_id (t : jsstring) : separator_free t = true -> trim t = t.
Proof.
  intros S. apply separator_free_Forall in S. unfold trim, trimEnd.
  rewrite (trimStart_id S), (trimStart_id (Forall_rev S)). apply rev_involutive.
Qed.

Lemma split_scan_separator_free (s : jsstring) :
  forall acc in_match, Forall (fun c => isSeparator c = false) acc ->
  Forall (fun t => separator_free t = true) (split_scan acc in_match s).
Proof.
  induction s as [|c s IH]; intros acc m Hacc; simpl.
  - constructor; [|constructor]. apply separator_free_Forall, Forall_rev, Hacc.
  - destruct (isSeparator c) eqn:Ec.
    + destruct m; [apply IH, Hacc|].
      constructor; [apply separator_free_Forall, Forall_rev, Hacc|].
      apply IH. constructor.
    + apply IH. constructor; assumption.
Qed.

(** X12.  No piece that [split] returns contains a comma or a whitespace
    character, so [trim] returns each piece as it is: the tickers are the
    non-empty pieces, uppercased. *)
Theorem split_pieces_need_no_trim (text : jsstring) :
  Forall (fun t => separator_free t = true /\ trim t = t) (split text)
  /\ tickers_of text = filter nonempty (map toUpperCase (split text)).
Proof.
  assert (F : Forall (fun t => separator_free t = true /\ trim t = t) (split text)).
  { eapply Forall_impl; [|exact (split_scan_separator_free text false (Forall_nil _))].
    intros t St. split; [exact St|exact (trim_id t St)]. }
  split; [exact F|]. unfold tickers_of. f_equal.
  revert F. generalize (split text). intros l F.
  induction F as [|t l [_ Ht] _ IH]; [reflexivity|].
  cbn [map]. rewrite Ht, IH. reflexivity.
Qed.

Lemma trimStart_empty (s : jsstring) : trimStart s = [] -> forallb isWhiteSpace s = true.
Proof.
  induction s as [|c s IH]; simpl; [reflexivity|].
  destruct (isWhiteSpace c); [exact IH|discriminate].
Qed.

Lemma trimStart_blank_back (s : jsstring) :
  forallb isWhiteSpace (trimStart s) = true -> forallb isWhiteSpace s = true.
Proof.
  induction s as [|c s IH]; simpl; [reflexivity|].
  destruct (isWhiteSpace c) eqn:Ec; [exact IH|].
  simpl. rewrite Ec. discriminate.
Qed.

Lemma trim_empty_blank (s : jsstring) : trim s = [] -> forallb isWhiteSpace s = true.
Proof.
  unfold trim, trimEnd. intros E. apply trimStart_blank_back.
  assert (R : trimStart (rev (trimStart s)) = []).
  { rewrite <- (rev_involutive (trimStart (rev (trimStart s)))), E. reflexivity. }
  apply trimStart_empty in R. rewrite forallb_forall in *.
  intros c Hc. apply R, in_rev. rewrite rev_involutive. exact Hc.
Qed.

Lemma split_scan_separators (s : jsstring) :
  forallb isSeparator s = true ->
  forall in_match, Forall (fun t => t = []) (split_scan [] in_match s).
Proof.
  induction s as [|c s IH]; simpl; intros Hs m.
  - repeat constructor.
  - apply andb_true_iff in Hs. destruct Hs as [-> Hs].
    destruct m; [exact (IH Hs true)|constructor; [reflexivity|exact (IH Hs true)]].
Qed.

Lemma tickers_of_separators (text : jsstring) :
  toUpperCase [] = [] -> forallb isSeparator text = true -> tickers_of text = [].
Proof.
  intros Hup Hs. unfold tickers_of, split.
  generalize (split_scan_separators text Hs false).
  generalize (split_scan [] false text). intros l F.
  induction F as [|t l E _ IH]; [reflexivity|].
  subst t. cbn [map filter]. rewrite trim_empty, Hup. exact IH.
Qed.

(** X13.  A field that holds nothing but commas and whitespace yields no
    ticker, and submitting it changes nothing and sends nothing; and the
    blank-input guard adds nothing to the guard on the ticker list: a
    submission starts a request exactly when the field yields a ticker.
    (Uppercasing the empty string gives the empty string.) *)
Theorem separators_only_is_noop (w : World) (now : number) :
  toUpperCase [] = [] ->
  (forallb isSeparator (input w) = true ->
     tickers_of (input w) = [] /\ react w (Submit now) = w)
  /\ starts_request w (Submit now) = negb (Nat.eqb (List.length (tickers_of (input w))) 0)
  /\ (tickers_of (input w) = [] <-> react w (Submit now) = w).
Proof.
  intros Hup.
  assert (G : starts_request w (Submit now)
              = negb (Nat.eqb (List.length (tickers_of (input w))) 0)).
  { simpl. destruct (nonempty (trim (input w))) eqn:Eb; [reflexivity|].
    destruct (trim (input w)) eqn:Et; [|discriminate].
    apply trim_empty_blank in Et.
    rewrite (tickers_of_separators (input w) Hup); [reflexivity|].
    rewrite forallb_forall in *. intros c Hc. specialize (Et c Hc).
    unfold isSeparator. rewrite Et. apply orb_true_r. }
  split; [|split; [exact G|]].
  - intros Hs. pose proof (tickers_of_separators (input w) Hup Hs) as E.
    split; [exact E|]. apply handleSearch_ignored. rewrite G, E. reflexivity.
  - split.
    + intros E. apply handleSearch_ignored. rewrite G, E. reflexivity.
    + intros E. destruct (tickers_of (input w)) as [|t l] eqn:Et; [reflexivity|].
      exfalso.
      assert (Hs : starts_request w (Submit now) = true) by (rewrite G; reflexivity).
      pose proof (submit_grows_sent w now Hs) as S. rewrite E in S.
      apply (f_equal (@List.length _)) in S. rewrite length_app in S. simpl in S. lia.
Qed.

Lemma split_scan_token (t rest : jsstring) :
  Forall (fun c => isSeparator c = false) t ->
  forall acc, split_scan acc false (t ++ rest) = split_scan (rev t ++ acc) false rest.
Proof.
  induction 1 as [|c t Hc _ IH]; intros acc; [reflexivity|].
  simpl. rewrite Hc, IH, <- app_assoc. reflexivity.
Qed.

Lemma split_scan_after_match (c : N) (s : jsstring) :
  isSeparator c = false -> split_scan [] true (c :: s) = split_scan [] false (c :: s).
Proof. intros Hc. simpl. rewrite Hc. reflexivity. Qed.

Lemma join_starts_plain (t : jsstring) (l : list jsstring) :
  plain_token t -> exists c s, join (js ", ") (t :: l) = c :: s /\ isSeparator c = false.
Proof.
  intros [Hne Hs]. destruct t as [|c t']; [congruence|].
  apply separator_free_Forall in Hs. inversion Hs; subst.
  destruct l; simpl; eexists; eexists; split; try reflexivity; assumption.
Qed.

Lemma split_scan_join (ts : list jsstring) :
  Forall plain_token ts ->
  forall t acc, plain_token t ->
  split_scan acc false (join (js ", ") (t :: ts)) = (rev acc ++ t) :: ts.
Proof.
  induction 1 as [|y l Hy _ IH]; intros t acc [Hne Hs].
  - simpl. rewrite <- (app_nil_r t) at 1.
    rewrite (split_scan_token [] (proj1 (separator_free_Forall t) Hs)). simpl.
    rewrite rev_app_distr, rev_involutive. reflexivity.
  - change (join (js ", ") (t :: y :: l)) with (t ++ js ", " ++ join (js ", ") (y :: l)).
    rewrite (split_scan_token _ (proj1 (separator_free_Forall t) Hs)).
    destruct (join_starts_plain l Hy) as (c & s & Ej & Hc).
    change (js ", " ++ join (js ", ") (y :: l)) with (44 :: 32 :: join (js ", ") (y :: l))%N.
    cbn [split_scan]. change (isSeparator 44) with true. change (isSeparator 32) with true.
    cbv iota. rewrite rev_app_distr, rev_involutive.
    f_equal. rewrite Ej, split_scan_after_match by exact Hc. rewrite <- Ej.
    exact (IH y [] Hy).
Qed.

(** X14.  A list written the way the request writes it -- non-empty tokens
    without commas or whitespace, joined by [", "] -- splits back into
    exactly those tokens; if they are already uppercase, it parses to
    itself. *)
Theorem joined_tickers_parse_back (ts : list jsstring) :
  ts <> [] ->
  Forall (fun t => t <> [] /\ separator_free t = true) ts ->
  split (join (js ", ") ts) = ts
  /\ (Forall (fun t => toUpperCase t = t) ts -> tickers_of (join (js ", ") ts) = ts).
Proof.
  intros Hne F. destruct ts as [|t ts]; [congruence|]. inversion F as [|? ? Ht Fts]; subst.
  assert (S : split (join (js ", ") (t :: ts)) = t :: ts).
  { unfold split. exact (split_scan_join Fts [] Ht). }
  split; [exact S|]. intros U. unfold tickers_of. rewrite S.
  clear S Hne Ht Fts. induction F as [|x l [Hx Sx] _ IH]; [reflexivity|].
  inversion U; subst. simpl. rewrite (trim_id x Sx).
  replace (toUpperCase x) with x by (symmetry; assumption).
  destruct x; [congruence|]. simpl. f_equal. apply IH. assumption.
Qed.

End TickerFacts.

Lemma separators_only_is_noop_witness :
  let w := App.setInput App.initial_world (js " , ,, ") in
  App.tickers_of (App.input w) = [] /\ App.react w (App.Submit (of_Z 1000)) = w.
Proof.
  cbv zeta.
  apply (proj1 (@separators_only_is_noop Demo.host
                  (App.setInput App.initial_world (js " , ,, ")) (of_Z 1000) eq_refl)).
  reflexivity.
Defined.

(** The text of the first preset button. *)
Lemma joined_tickers_parse_back_witness :
  join (js ", ") [js "AAPL"; js "NVDA"; js "MSFT"] = js "AAPL, NVDA, MSFT"
  /\ App.tickers_of (js "AAPL, NVDA, MSFT") = [js "AAPL"; js "NVDA"; js "MSFT"].
Proof.
  split; [reflexivity|].
  apply (proj2 (@joined_tickers_parse_back Demo.host [js "AAPL"; js "NVDA"; js "MSFT"]
                  ltac:(discriminate)
                  ltac:(repeat constructor; discriminate))).
  repeat constructor.
Defined.

(** ** More on the contract *)

Section ContractFacts.
Import GeminiService.
Context `{Host}.

(** What is returned for a payload with a [results] array. *)
Lemma analyzeStocks_of_array (tickers : list jsstring) (r : GenerateContentResponse)
      (t : jsstring) (parsed : JValue) (items : list JValue) :
  text r = Some t -> nonempty t = true -> JSON_parse t = Ok parsed ->
  Spec.results_array parsed = Some items ->
  analyzeStocks tickers (Fulfilled r)
  = Ok (map (with_sources (firstn 5 (globalSources r))) items).
Proof.
  intros Et Hne Ep Ha. unfold analyzeStocks. cbn [bind]. rewrite Et, Hne. cbn [bind].
  rewrite Ep. cbn [bind]. unfold Spec.results_array in Ha.
  destruct parsed as [| | | | |props]; try discriminate Ha.
  cbn [read_results bind].
  destruct (get_prop (js "results") props) as [[| | | |xs|]|]; try discriminate Ha.
  inversion Ha; subst. reflexivity.
Qed.

Lemma conforms_batch (parsed : JValue) :
  conforms BATCH_SCHEMA parsed = true ->
  exists items, Spec.results_array parsed = Some items
    /\ forallb (conforms STOCK_ITEM_SCHEMA) items = true.
Proof.
  destruct parsed as [| | | | |props]; try discriminate.
  unfold BATCH_SCHEMA. cbn [conforms forallb has_prop]. unfold Spec.results_array, has_prop.
  destruct (get_prop (js "results") props) as [x|]; [|discriminate].
  intros E. apply andb_true_iff in E. destruct E as [_ E].
  apply andb_true_iff in E. destruct E as [E _].
  destruct x as [| | | |items|]; try discriminate E.
  exists items. split; [reflexivity|exact E].
Qed.

(** X15.  The response schema suffices: if the payload parses to a value
    that conforms to [BATCH_SCHEMA], [analyzeStocks] throws nothing and
    returns one record for each element of [results], every one of them
    conforming to [STOCK_ITEM_SCHEMA]. *)
Theorem schema_conformant_payload_is_accepted (tickers : list jsstring)
        (r : GenerateContentResponse) (t : jsstring) (parsed : JValue) :
  text r = Some t -> nonempty t = true -> JSON_parse t = Ok parsed ->
  conforms BATCH_SCHEMA parsed = true ->
  exists items results,
    Spec.results_array parsed = Some items
    /\ analyzeStocks tickers (Fulfilled r) = Ok results
    /\ List.length results = List.length items
    /\ Forall (fun x => conforms STOCK_ITEM_SCHEMA x = true) results.
Proof.
  intros Et Hne Ep Hc. destruct (conforms_batch parsed Hc) as (items & Ha & Hall).
  exists items. eexists. split; [exact Ha|].
  split; [exact (analyzeStocks_of_array tickers r Et Hne Ep Ha)|].
  split; [apply length_map|].
  apply Forall_map, Forall_forall. intros x Hx. apply with_sources_conforms.
  rewrite forallb_forall in Hall. exact (Hall x Hx).
Qed.

(** X16.  Each record the model sent comes back at its position with every
    property it had, except that [sources] is set to the shared citation
    list -- also when the model sent a [sources] of its own. *)
Theorem records_keep_their_fields (tickers : list jsstring)
        (r : GenerateContentResponse) (t : jsstring) (parsed : JValue)
        (items : list JValue) :
  text r = Some t -> nonempty t = true -> JSON_parse t = Ok parsed ->
  Spec.results_array parsed = Some items ->
  exists results,
    analyzeStocks tickers (Fulfilled r) = Ok results
    /\ forall i props, nth_error items i = Some (JObj props) ->
       exists props',
         nth_error results i = Some (JObj props')
         /\ get_prop (js "sources") props'
            = Some (JArr (map source_json (firstn 5 (globalSources r))))
         /\ forall k, str_eqb k (js "sources") = false ->
                      get_prop k props' = get_prop k props.
Proof.
  intros Et Hne Ep Ha. eexists. split; [exact (analyzeStocks_of_array tickers r Et Hne Ep Ha)|].
  intros i props Hi. eexists. split.
  - rewrite nth_error_map, Hi. reflexivity.
  - cbn [spread]. split; [apply get_prop_set_prop_same|].
    intros k Hk. apply get_prop_set_prop_other, Hk.
Qed.

(** X17.  Citations come from the grounding chunks of the first candidate
    only; when none of them has a usable link -- no candidate, no metadata,
    no chunks, or links that are missing, empty or '#' -- every record gets
    the empty list as its [sources]. *)
Theorem no_usable_chunk_no_sources (tickers : list jsstring)
        (r : GenerateContentResponse) (results : list JValue) :
  analyzeStocks tickers (Fulfilled r) = Ok results ->
  (forall c rest,
     candidates r = Some (c :: rest) ->
     globalSources r = globalSources {| text := text r; candidates := Some [c] |})
  /\ (Forall (fun chunk => web_uri chunk = None \/ web_uri chunk = Some []
                           \/ web_uri chunk = Some (js "#")) (chunks_of r) ->
      globalSources r = []
      /\ Forall (fun x => exists props, x = JObj props
                   /\ get_prop (js "sources") props = Some (JArr [])) results).
Proof.
  intros Hok. split.
  - intros c rest Ec. unfold globalSources, groundingChunks_of. simpl. rewrite Ec. reflexivity.
  - intros Hnone.
    assert (G : globalSources r = []).
    { rewrite globalSources_filter. induction Hnone as [|chunk l Hc _ IH]; [reflexivity|].
      cbn [map filter]. unfold chunk_source at 1. cbn [source_uri].
      destruct Hc as [E|[E|E]]; rewrite E; simpl; exact IH. }
    split; [exact G|]. destruct (analyzeStocks_ok tickers r Hok) as (items & ->).
    rewrite G. apply Forall_map, Forall_forall. intros x _.
    unfold with_sources. eexists. split; [reflexivity|].
    apply get_prop_set_prop_same.
Qed.

End ContractFacts.

(** A batch of two complete records, answered with ten grounding chunks. *)
Lemma schema_conformant_payload_is_accepted_witness :
  let r := Demo.response_with Demo.batch_text [Demo.candidate Demo.mixed_chunks] in
  GeminiService.conforms GeminiService.BATCH_SCHEMA Demo.batch_value = true
  /\ exists results,
       @GeminiService.analyzeStocks Demo.rich_host [js "AAPL"; js "NVDA"]
         (GeminiService.Fulfilled r) = Ok results
       /\ List.length results = 2%nat
       /\ Forall (fun x => GeminiService.conforms GeminiService.STOCK_ITEM_SCHEMA x = true)
                 results.
Proof.
  cbv zeta. split; [reflexivity|].
  destruct (@schema_conformant_payload_is_accepted Demo.rich_host [js "AAPL"; js "NVDA"]
              (Demo.response_with Demo.batch_text [Demo.candidate Demo.mixed_chunks])
              Demo.batch_text Demo.batch_value eq_refl eq_refl eq_refl eq_refl)
    as (items & results & Ha & Hok & Hlen & Hall).
  exists results. split; [exact Hok|]. split; [|exact Hall].
  rewrite Hlen. inversion Ha. reflexivity.
Defined.

(** The first record of the batch keeps its ticker, its company name and
    its nested value block, and loses the [sources] it came with to the
    shared citations. *)
Lemma records_keep_their_fields_witness :
  let r := Demo.response_with Demo.batch_text [Demo.candidate Demo.mixed_chunks] in
  nth_error Demo.batch_items 0
  = Some (Demo.record_value "AAPL" "Apple Inc." "Buy"
            [ (js "sources", JArr [ JStr (js "mine") ]) ])
  /\ exists results props',
       @GeminiService.analyzeStocks Demo.rich_host [js "AAPL"; js "NVDA"]
         (GeminiService.Fulfilled r) = Ok results
       /\ nth_error results 0 = Some (JObj props')
       /\ get_prop (js "ticker") props' = Some (JStr (js "AAPL"))
       /\ get_prop (js "companyName") props' = Some (JStr (js "Apple Inc."))
       /\ get_prop (js "finalRecommendation") props' = Some (JStr (js "Buy"))
       /\ get_prop (js "sources") props' = Some Demo.mixed_citations.
Proof.
  cbv zeta. split; [reflexivity|].
  destruct (@records_keep_their_fields Demo.rich_host [js "AAPL"; js "NVDA"]
              (Demo.response_with Demo.batch_text [Demo.candidate Demo.mixed_chunks])
              Demo.batch_text Demo.batch_value Demo.batch_items
              eq_refl eq_refl eq_refl eq_refl)
    as (results & Hok & Hf).
  destruct (Hf 0%nat _ eq_refl) as (props' & Hn & Hs & Hk).
  exists results, props'. split; [exact Hok|]. split; [exact Hn|].
  split; [rewrite (Hk (js "ticker") eq_refl); reflexivity|].
  split; [rewrite (Hk (js "companyName") eq_refl); reflexivity|].
  split; [rewrite (Hk (js "finalRecommendation") eq_refl); reflexivity|].
  rewrite Hs. reflexivity.
Defined.

(** Two candidates: the first with four chunks, none with a usable link,
    the second with six usable ones, which are never looked at. *)
Lemma no_usable_chunk_no_sources_witness :
  let r := Demo.response_with Demo.one_blank_result_text
             [Demo.candidate Demo.unusable_chunks; Demo.candidate Demo.mixed_chunks] in
  List.length (GeminiService.chunks_of r) = 4%nat
  /\ GeminiService.globalSources r
     = GeminiService.globalSources
         (Demo.response_with Demo.one_blank_result_text [Demo.candidate Demo.unusable_chunks])
  /\ GeminiService.globalSources r = []
  /\ Forall (fun x => exists props, x = JObj props
               /\ get_prop (js "sources") props = Some (JArr []))
            [ JObj [ (js "sources", JArr []) ] ]
  /\ GeminiService.analyzeStocks [js "AAPL"] (GeminiService.Fulfilled r)
     = Ok [ JObj [ (js "sources", JArr []) ] ].
Proof.
  cbv zeta.
  destruct (@no_usable_chunk_no_sources Demo.host [js "AAPL"]
              (Demo.response_with Demo.one_blank_result_text
                 [Demo.candidate Demo.unusable_chunks; Demo.candidate Demo.mixed_chunks])
              [ JObj [ (js "sources", JArr []) ] ] eq_refl)
    as (Hfirst & Hnone).
  split; [reflexivity|].
  split; [exact (Hfirst _ _ eq_refl)|].
  destruct Hnone as (Hg & Hall).
  - change (GeminiService.chunks_of _) with Demo.unusable_chunks.
    unfold Demo.unusable_chunks.
    constructor; [left; reflexivity|].
    constructor; [left; reflexivity|].
    constructor; [right; right; reflexivity|].
    constructor; [right; left; reflexivity|constructor].
  - split; [exact Hg|]. split; [exact Hall|reflexivity].
Defined.

(** ** More on the dashboard *)

Section DashboardFacts.
Import AnalysisDashboard.

Lemma num_gt_le (a b : number) : num_gt b a = true -> num_le a b = true.
Proof.
  unfold num_gt, num_le, SFltb, SFleb. destruct (SFcompare a b) as [[]|]; congruence.
Qed.

(** X18.  The two displays of the quality score never contradict each
    other: an emerald score in the header (at least 80) goes with the
    emerald 'High Qual' badge, and a rose score (below 50, or not a number)
    with the yellow 'Mixed' badge; only a yellow score can go with either. *)
Theorem quality_displays_agree (data : StockAnalysisData) :
  (qualityScoreClass data = js "text-emerald-400" ->
     qualityBadge data = js "High Qual"
     /\ qualityBadgeClass data = js "bg-emerald-500/10 text-emerald-400")
  /\ (qualityScoreClass data = js "text-rose-400" ->
     qualityBadge data = js "Mixed"
     /\ qualityBadgeClass data = js "bg-yellow-500/10 text-yellow-400").
Proof.
  unfold qualityScoreClass, qualityBadge, qualityBadgeClass.
  set (q := qualityScore (quality data)).
  destruct (num_ge q (of_Z 80)) eqn:E80.
  - split; [intros _|intros X; vm_compute in X; discriminate X].
    assert (G : num_gt q (of_Z 70) = true).
    { apply (num_lt_le_trans (of_Z 70) (of_Z 80) q); [reflexivity|exact E80]. }
    rewrite G. split; reflexivity.
  - destruct (num_ge q (of_Z 50)) eqn:E50.
    + split; intros X; vm_compute in X; discriminate X.
    + split; [intros X; vm_compute in X; discriminate X|intros _].
      destruct (num_gt q (of_Z 70)) eqn:G; [|split; reflexivity].
      exfalso. apply num_gt_le in G.
      assert (L : num_le (of_Z 50) q = true).
      { exact (num_le_trans (of_Z 50) (of_Z 70) q eq_refl G). }
      unfold num_ge, num_le in *. congruence.
Qed.



(** X20.  The five recommendations get five different colour classes, none
    of them the neutral slate one, and every other string gets the slate
    class. *)
Theorem recommendation_colours_distinct :
  (forall r1 r2,
     getRecommendationColor (recommendation_text r1)
     = getRecommendationColor (recommendation_text r2) -> r1 = r2)
  /\ (forall r, getRecommendationColor (recommendation_text r)
                <> js "text-slate-400 bg-slate-400/10 border-slate-400/20")
  /\ (forall s, (forall r, s <> recommendation_text r) ->
        getRecommendationColor s = js "text-slate-400 bg-slate-400/10 border-slate-400/20").
Proof.
  split; [|split].
  - intros [] []; intros E; try reflexivity; vm_compute in E; discriminate E.
  - intros [] E; vm_compute in E; discriminate E.
  - intros s Hs. unfold getRecommendationColor.
    destruct (str_eqb s (js "Strong Buy")) eqn:E1;
      [apply str_eqb_eq in E1; exfalso; exact (Hs StrongBuy E1)|].
    destruct (str_eqb s (js "Buy")) eqn:E2;
      [apply str_eqb_eq in E2; exfalso; exact (Hs Buy E2)|].
    destruct (str_eqb s (js "Hold")) eqn:E3;
      [apply str_eqb_eq in E3; exfalso; exact (Hs Hold E3)|].
    destruct (str_eqb s (js "Sell")) eqn:E4;
      [apply str_eqb_eq in E4; exfalso; exact (Hs Sell E4)|].
    destruct (str_eqb s (js "Strong Sell")) eqn:E5;
      [apply str_eqb_eq in E5; exfalso; exact (Hs StrongSell E5)|].
    reflexivity.
Qed.

(** X21.  The radar never leaves its scale when the quality score is
    within 0..100: every axis value lies between 0 and its [fullMark], the
    value and momentum axes between 10 and 100 whatever the grades. *)
Theorem radar_within_full_mark (data : StockAnalysisData) :
  num_le (of_Z 0) (qualityScore (quality data)) = true ->
  num_le (qualityScore (quality data)) (of_Z 100) = true ->
  List.length (factorData data) = 3%nat
  /\ Forall (fun f => num_le (of_Z 0) (A f) = true /\ num_le (A f) (fullMark f) = true)
            (factorData data)
  /\ Forall (fun f => subject f = js "Quality"
                      \/ (num_le (of_Z 10) (A f) = true /\ num_le (A f) (of_Z 100) = true))
            (factorData data).
Proof.
  intros H0 H100. unfold factorData. split; [reflexivity|].
  assert (V : num_le (of_Z 10) (match valuationGrade (value data) with
                                | Low => of_Z 100 | Fair => of_Z 60 | High => of_Z 20 end) = true
              /\ num_le (match valuationGrade (value data) with
                         | Low => of_Z 100 | Fair => of_Z 60 | High => of_Z 20 end)
                        (of_Z 100) = true
              /\ num_le (of_Z 0) (match valuationGrade (value data) with
                                  | Low => of_Z 100 | Fair => of_Z 60 | High => of_Z 20 end)
                 = true).
  { destruct (valuationGrade (value data)); repeat split; reflexivity. }
  assert (M : num_le (of_Z 10) (match revisionsGrade (momentum data) with
                                | Strong => of_Z 100 | Neutral => of_Z 50 | Weak => of_Z 10 end)
              = true
              /\ num_le (match revisionsGrade (momentum data) with
                         | Strong => of_Z 100 | Neutral => of_Z 50 | Weak => of_Z 10 end)
                        (of_Z 100) = true
              /\ num_le (of_Z 0) (match revisionsGrade (momentum data) with
                                  | Strong => of_Z 100 | Neutral => of_Z 50 | Weak => of_Z 10 end)
                 = true).
  { destruct (revisionsGrade (momentum data)); repeat split; reflexivity. }
  destruct V as (V10 & V100 & V0). destruct M as (M10 & M100 & M0).
  split.
  - repeat constructor; cbn [A fullMark]; assumption.
  - constructor; [right; split; assumption|].
    constructor; [left; reflexivity|].
    constructor; [right; split; assumption|constructor].
Qed.

End DashboardFacts.

Lemma quality_displays_agree_witness :
  AnalysisDashboard.qualityScoreClass (Demo.stock (of_Z 0) (of_Z 0)) = js "text-emerald-400"
  /\ AnalysisDashboard.qualityBadge (Demo.stock (of_Z 0) (of_Z 0)) = js "High Qual".
Proof.
  split; [reflexivity|].
  apply (proj1 (quality_displays_agree (Demo.stock (of_Z 0) (of_Z 0)))). reflexivity.
Defined.


Lemma radar_within_full_mark_witness :
  map AnalysisDashboard.A (AnalysisDashboard.factorData (Demo.stock (of_Z 0) (of_Z 0)))
  = [of_Z 60; of_Z 85; of_Z 100]
  /\ Forall (fun f => num_le (AnalysisDashboard.A f) (AnalysisDashboard.fullMark f) = true)
            (AnalysisDashboard.factorData (Demo.stock (of_Z 0) (of_Z 0))).
Proof.
  split; [reflexivity|].
  destruct (radar_within_full_mark (Demo.stock (of_Z 0) (of_Z 0)) eq_refl eq_refl)
    as (_ & F & _).
  eapply Forall_impl; [|exact F]. intros f [_ Hf]. exact Hf.
Defined.
